(** * libaudit: the user-space side of the kernel audit netlink protocol

    A shallow embedding of [auditd/libaudit.c]: the netlink framing macros,
    the reply decoder [set_internal_fields], the receiver [audit_get_reply],
    the ack wait [get_ack], the sender [audit_send] and the two control
    operations [audit_set_pid] and [audit_set_logsplit].

    The kernel side of the socket is a scripted environment carried in the
    program state: a queue of pending datagrams, a script of failures for
    [recvfrom] and a script of outcomes for [sendto].  Every socket call is
    appended to a trace, so that "no syscall was made" is a statement about
    the state. *)

From Stdlib Require Import ZArith List Bool Lia.
From Stdlib Require Import Strings.Byte.
Import ListNotations.
Local Open Scope Z_scope.

(** ** Machine integers

    C integers are [Z] with the wrap-around written out. *)

Definition u16 (x : Z) : Z := x mod 65536.
Definition u32 (x : Z) : Z := x mod 4294967296.
Definition s16 (x : Z) : Z := (x + 32768) mod 65536 - 32768.
Definition s32 (x : Z) : Z := (x + 2147483648) mod 4294967296 - 2147483648.

(** ** Constants of the system headers *)

Module Errno.
Definition EINTR  : Z := 4.
Definition EBADF  : Z := 9.
Definition EAGAIN : Z := 11.
Definition EACCES : Z := 13.
Definition EINVAL : Z := 22.
Definition EFBIG  : Z := 27.
Definition EBADE  : Z := 52.
Definition EPROTO : Z := 71.
Definition ECONNREFUSED : Z := 111.
End Errno.
Import Errno.

Definition MSG_PEEK     : Z := 2.
Definition MSG_DONTWAIT : Z := 64.

Definition NLM_F_REQUEST : Z := 1.
Definition NLM_F_ACK     : Z := 4.
Definition NLMSG_ERROR   : Z := 2.

Definition AUDIT_GET         : Z := 1000.
Definition AUDIT_SET         : Z := 1001.
Definition AUDIT_SIGNAL_INFO : Z := 1010.
Definition AUDIT_LIST_RULES  : Z := 1013.
Definition AUDIT_STATUS_PID  : Z := 4.

(** [struct nlmsghdr]: u32 length, u16 type, u16 flags, u32 seq, u32 pid. *)
Record nlmsghdr := {
  nlmsg_len   : Z;
  nlmsg_type  : Z;
  nlmsg_flags : Z;
  nlmsg_seq   : Z;
  nlmsg_pid   : Z
}.

Definition sizeof_nlmsghdr   : Z := 16.
Definition sizeof_sockaddr_nl : Z := 12.

(** ** The netlink framing macros of <linux/netlink.h>

    [NLMSG_ALIGNTO] is [4U], so the arithmetic is unsigned 32-bit. *)

Definition NLMSG_ALIGNTO : Z := 4.

Definition NLMSG_ALIGN (len : Z) : Z :=
  Z.land (u32 (len + NLMSG_ALIGNTO - 1)) (u32 (Z.lnot (NLMSG_ALIGNTO - 1))).

Definition NLMSG_HDRLEN : Z := NLMSG_ALIGN sizeof_nlmsghdr.

Definition NLMSG_LENGTH (len : Z) : Z := u32 (len + NLMSG_HDRLEN).

Definition NLMSG_SPACE (len : Z) : Z := NLMSG_ALIGN (NLMSG_LENGTH len).

(** [NLMSG_OK(nlh, len)]: at least a header was received, the declared
    length covers a header and does not exceed what was received.  [len]
    is the byte count of a successful [recvfrom], never negative, so the
    unsigned comparisons of the macro are plain ones. *)
Definition NLMSG_OK (nlh : nlmsghdr) (len : Z) : bool :=
  (sizeof_nlmsghdr <=? len) &&
  (sizeof_nlmsghdr <=? nlmsg_len nlh) &&
  (nlmsg_len nlh <=? len).

(** ** The declarations of libaudit.h

    The header is not part of the sources at hand; what the code takes from
    it is a parameter of the development. *)

Class libaudit_h := {
  (** capacity of [audit_message.data] *)
  MAX_AUDIT_MESSAGE_LENGTH : Z;
  MAX_AUDIT_MESSAGE_LENGTH_int : 0 <= MAX_AUDIT_MESSAGE_LENGTH < 2147483648;
  (** the two values of the log-split flag and the request type *)
  AUDIT_LOGSPLIT_OFF : Z;
  AUDIT_LOGSPLIT_ON  : Z;
  AUDIT_LOGSPLIT_SET : Z;
  (** object representation of a zeroed [struct audit_logsplit_status]
      whose [enabled] member holds the argument *)
  audit_logsplit_status_bytes : Z -> list byte
}.

Inductive reply_t := GET_REPLY_BLOCKING | GET_REPLY_NONBLOCKING.
Inductive rep_wait_t := WAIT_NO | WAIT_YES.

Definition reply_t_eqb (a b : reply_t) : bool :=
  match a, b with
  | GET_REPLY_BLOCKING, GET_REPLY_BLOCKING => true
  | GET_REPLY_NONBLOCKING, GET_REPLY_NONBLOCKING => true
  | _, _ => false
  end.

Definition rep_wait_t_eqb (a b : rep_wait_t) : bool :=
  match a, b with
  | WAIT_NO, WAIT_NO => true
  | WAIT_YES, WAIT_YES => true
  | _, _ => false
  end.

(** [struct audit_message]: a netlink header followed by the data area. *)
Record audit_message := {
  nlh  : nlmsghdr;
  data : list byte
}.

(** The anonymous union of [struct audit_reply]: every member is a pointer,
    either null or aimed at [NLMSG_DATA] of the message under one of the
    five types. *)
Inductive reply_view :=
| ViewNull
| ViewError
| ViewStatus
| ViewRuleData
| ViewSignalInfo
| ViewMessage.

(** [struct audit_reply].  [rep_nlh] tells whether the [nlh] pointer has
    been aimed at [msg.nlh]. *)
Record audit_reply := {
  rep_type : Z;
  rep_len  : Z;
  rep_nlh  : bool;
  rep_msg  : audit_message;
  rep_view : reply_view
}.

(** ** Little-endian object representations *)

Definition byte_of_Z (x : Z) : byte :=
  match Byte.of_N (Z.to_N (x mod 256)) with
  | Some b => b
  | None => x00
  end.

Definition Z_of_byte (b : byte) : Z := Z.of_N (Byte.to_N b).

Definition le32 (x : Z) : list byte :=
  [byte_of_Z x; byte_of_Z (x / 256); byte_of_Z (x / 65536); byte_of_Z (x / 16777216)].

Definition read_u32 (bs : list byte) : Z :=
  Z_of_byte (nth 0 bs x00)
  + 256 * Z_of_byte (nth 1 bs x00)
  + 65536 * Z_of_byte (nth 2 bs x00)
  + 16777216 * Z_of_byte (nth 3 bs x00).

(** [((struct nlmsgerr * )NLMSG_DATA(nlh))->error]: the signed int at the
    start of the data area. *)
Definition nlmsgerr_error (m : audit_message) : Z := s32 (read_u32 (data m)).

(** A zeroed [struct audit_status] (eight u32 members, [mask] first and
    [pid] fourth) with [pid] and [mask] assigned. *)
Definition audit_status_bytes (pid mask : Z) : list byte :=
  le32 mask ++ le32 0 ++ le32 0 ++ le32 pid ++
  le32 0 ++ le32 0 ++ le32 0 ++ le32 0.

Definition sizeof_audit_status : Z := 32.

(** ** The socket and the program state *)

(** A datagram pending on the socket: what [recvfrom] leaves in the receive
    buffer, the byte count it reports, and the sender address it fills in. *)
Record datagram := {
  dg_msg     : audit_message;
  dg_len     : Z;
  dg_nl_pid  : Z;
  dg_addrlen : Z
}.

(** One scripted outcome of [sendto]: a failure with an errno, or a number
    of bytes accepted. *)
Inductive tx_event :=
| TxFail (e : Z)
| TxAccept (n : Z).

Inductive syscall :=
| Sendto (fd : Z) (req : audit_message) (len : Z)
| Recvfrom (fd : Z) (flags : Z).

Record world := {
  (** [static int16_t sequence] of [audit_send] *)
  sequence  : Z;
  (** the thread's [errno] *)
  errno     : Z;
  (** datagrams pending on the socket, oldest first *)
  rxq       : list datagram;
  (** per call of [recvfrom]: [Some e] makes it fail with errno [e],
      [None] lets it go to the queue; an exhausted script is all [None] *)
  rx_faults : list (option Z);
  (** per call of [sendto]; an exhausted script accepts every byte *)
  tx_script : list tx_event;
  (** socket calls made so far, oldest first *)
  trace     : list syscall;
  (** indeterminate initial contents of an automatic [struct audit_reply] *)
  auto_rep  : audit_reply
}.

Definition set_sequence (s : Z) (w : world) : world :=
  {| sequence := s; errno := errno w; rxq := rxq w; rx_faults := rx_faults w;
     tx_script := tx_script w; trace := trace w; auto_rep := auto_rep w |}.

Definition set_errno (e : Z) (w : world) : world :=
  {| sequence := sequence w; errno := e; rxq := rxq w; rx_faults := rx_faults w;
     tx_script := tx_script w; trace := trace w; auto_rep := auto_rep w |}.

Definition set_rxq (q : list datagram) (w : world) : world :=
  {| sequence := sequence w; errno := errno w; rxq := q; rx_faults := rx_faults w;
     tx_script := tx_script w; trace := trace w; auto_rep := auto_rep w |}.

Definition set_rx_faults (f : list (option Z)) (w : world) : world :=
  {| sequence := sequence w; errno := errno w; rxq := rxq w; rx_faults := f;
     tx_script := tx_script w; trace := trace w; auto_rep := auto_rep w |}.

Definition set_tx_script (s : list tx_event) (w : world) : world :=
  {| sequence := sequence w; errno := errno w; rxq := rxq w; rx_faults := rx_faults w;
     tx_script := s; trace := trace w; auto_rep := auto_rep w |}.

Definition log_syscall (c : syscall) (w : world) : world :=
  {| sequence := sequence w; errno := errno w; rxq := rxq w; rx_faults := rx_faults w;
     tx_script := tx_script w; trace := trace w ++ [c]; auto_rep := auto_rep w |}.

(** ** A state monad with divergence and undefined behaviour

    A computation returns a value and a new state, or never returns (a
    blocking receive on an empty socket), or leaves defined behaviour (a
    [memcpy] outside its objects); the last two keep the state in which
    they happened. *)

Inductive outcome (A : Type) :=
| Done (a : A) (w : world)
| Blocked (w : world)
| Undefined (w : world).
Arguments Done {A} a w.
Arguments Blocked {A} w.
Arguments Undefined {A} w.

Definition M (A : Type) : Type := world -> outcome A.

Definition ret {A} (a : A) : M A := fun w => Done a w.

Definition bind {A B} (c : M A) (k : A -> M B) : M B :=
  fun w =>
    match c w with
    | Done a w' => k a w'
    | Blocked w' => Blocked w'
    | Undefined w' => Undefined w'
    end.

Declare Scope audit_scope.
Delimit Scope audit_scope with audit.
Notation "x <- c ;; k" := (bind c (fun x => k))
  (at level 61, c at next level, right associativity) : audit_scope.
Notation "' p <- c ;; k" := (bind c (fun p => k))
  (at level 61, p pattern, c at next level, right associativity) : audit_scope.
Notation "c ;;; k" := (bind c (fun _ => k))
  (at level 61, right associativity) : audit_scope.
Local Open Scope audit_scope.

Definition get_world : M world := fun w => Done w w.
Definition modify (f : world -> world) : M unit := fun w => Done tt (f w).
Definition block {A} : M A := fun w => Blocked w.
Definition undefined {A} : M A := fun w => Undefined w.

(** ** The program *)

Section Libaudit.
Context `{libaudit_h}.

(** [sizeof(struct audit_message)]: the header and the data area, padded to
    the 4-byte alignment of the header's members. *)
Definition sizeof_audit_message : Z :=
  4 * ((sizeof_nlmsghdr + MAX_AUDIT_MESSAGE_LENGTH + 3) / 4).

(** *** The two socket calls *)

(** The byte count [recvfrom] reports for a datagram: never negative and
    never more than the buffer it was given. *)
Definition recv_len (d : datagram) : Z :=
  Z.max 0 (Z.min (dg_len d) sizeof_audit_message).

(** What one [recvfrom] hands back to its caller. *)
Record recv_result := {
  rr_len       : Z;
  rr_rep       : audit_reply;
  rr_nl_pid    : Z;
  rr_nladdrlen : Z
}.

Definition store_msg (m : audit_message) (rep : audit_reply) : audit_reply :=
  {| rep_type := rep_type rep; rep_len := rep_len rep; rep_nlh := rep_nlh rep;
     rep_msg := m; rep_view := rep_view rep |}.

(** [recvfrom(fd, &rep->msg, sizeof(rep->msg), flags, &nladdr, &nladdrlen)].
    A scripted failure returns -1 and sets [errno], touching neither the
    buffer nor the address.  Otherwise the oldest datagram is copied out,
    and removed unless [MSG_PEEK] is set; on an empty socket the call fails
    with [EAGAIN] under [MSG_DONTWAIT] and never returns without it. *)
Definition recvfrom (fd : Z) (rep : audit_reply) (flags : Z)
    (nl_pid nladdrlen : Z) : M recv_result :=
  w <- get_world ;;
  modify (log_syscall (Recvfrom fd flags)) ;;;
  modify (set_rx_faults (tl (rx_faults w))) ;;;
  match hd None (rx_faults w) with
  | Some e =>
      modify (set_errno e) ;;;
      ret {| rr_len := -1; rr_rep := rep;
             rr_nl_pid := nl_pid; rr_nladdrlen := nladdrlen |}
  | None =>
      match rxq w with
      | [] =>
          if Z.land flags MSG_DONTWAIT =? 0 then block
          else
            modify (set_errno EAGAIN) ;;;
            ret {| rr_len := -1; rr_rep := rep;
                   rr_nl_pid := nl_pid; rr_nladdrlen := nladdrlen |}
      | d :: q =>
          modify (set_rxq (if Z.land flags MSG_PEEK =? 0 then q else d :: q)) ;;;
          ret {| rr_len := recv_len d; rr_rep := store_msg (dg_msg d) rep;
                 rr_nl_pid := dg_nl_pid d; rr_nladdrlen := dg_addrlen d |}
      end
  end.

(** [sendto(fd, &req, len, 0, &addr, sizeof(addr))]: a scripted failure
    returns -1 and sets [errno]; otherwise some of the [len] bytes are
    accepted, all of them once the script is exhausted. *)
Definition sendto (fd : Z) (req : audit_message) (len : Z) : M Z :=
  w <- get_world ;;
  modify (log_syscall (Sendto fd req len)) ;;;
  modify (set_tx_script (tl (tx_script w))) ;;;
  match tx_script w with
  | [] => ret len
  | TxFail e :: _ => modify (set_errno e) ;;; ret (-1)
  | TxAccept n :: _ => ret (Z.max 0 (Z.min n len))
  end.

(** *** [set_internal_fields] *)

(** [rep->nlh], [rep->len] and [rep->type] taken from the message header
    (the 32-bit length lands in an [int]), and the union aimed by [v]. *)
Definition decode (rep : audit_reply) (v : reply_view) : audit_reply :=
  {| rep_type := nlmsg_type (nlh (rep_msg rep));
     rep_len := s32 (nlmsg_len (nlh (rep_msg rep)));
     rep_nlh := true;
     rep_msg := rep_msg rep;
     rep_view := v |}.

(** Returns the result code and the reply as it is left behind.  The first
    four assignments happen before the [NLMSG_OK] test, so a rejected reply
    still has its type and length set and its union cleared. *)
Definition set_internal_fields (rep : audit_reply) (len : Z) : Z * audit_reply :=
  let rep := decode rep ViewNull in
  if negb (NLMSG_OK (rep_msg rep).(nlh) len) then
    ((if len =? sizeof_audit_message then - EFBIG else - EBADE), rep)
  else if rep_type rep =? NLMSG_ERROR then (0, decode rep ViewError)
  else if rep_type rep =? AUDIT_GET then (0, decode rep ViewStatus)
  else if rep_type rep =? AUDIT_LIST_RULES then (0, decode rep ViewRuleData)
  else if rep_type rep =? AUDIT_SIGNAL_INFO then (0, decode rep ViewSignalInfo)
  else (0, decode rep ViewMessage).

(** *** [audit_get_reply] *)

(** [flags = (block == GET_REPLY_NONBLOCKING) ? MSG_DONTWAIT : 0;
    flags |= peek;] *)
Definition recv_flags (blk : reply_t) (peek : Z) : Z :=
  Z.lor (if reply_t_eqb blk GET_REPLY_NONBLOCKING then MSG_DONTWAIT else 0) peek.

(** The do-while around [recvfrom].  [inl rc] is a [return rc] from inside
    the loop; [inr r] leaves the loop with a received datagram.  The fuel
    bounds the number of interrupted calls; [audit_get_reply] supplies more
    than the failure script can use up. *)
Fixpoint get_reply_loop (fuel : nat) (fd : Z) (rep : audit_reply)
    (blk : reply_t) (flags : Z) (nl_pid nladdrlen : Z)
    : M (Z + recv_result) :=
  match fuel with
  | O => block
  | S fuel' =>
      r <- recvfrom fd rep flags nl_pid nladdrlen ;;
      w <- get_world ;;
      if (rr_len r <? 0) && negb (errno w =? EINTR) then
        if reply_t_eqb blk GET_REPLY_NONBLOCKING && (errno w =? EAGAIN)
        then ret (inl 0)
        else ret (inl (- errno w))
      else if rr_len r <? 0
      then get_reply_loop fuel' fd (rr_rep r) blk flags
             (rr_nl_pid r) (rr_nladdrlen r)
      else ret (inr r)
  end.

(** [audit_get_reply(fd, rep, block, peek)].  The reply structure is passed
    by pointer: the result carries it as the call leaves it.  [nladdr] is
    written by every successful [recvfrom] before it is read, so its
    indeterminate initial [nl_pid] is taken as 0. *)
Definition audit_get_reply (fd : Z) (rep : audit_reply) (blk : reply_t)
    (peek : Z) : M (Z * audit_reply) :=
  if fd <? 0 then ret (- EBADF, rep)
  else
    let flags := recv_flags blk peek in
    w <- get_world ;;
    x <- get_reply_loop (S (length (rx_faults w))) fd rep blk flags
           0 sizeof_sockaddr_nl ;;
    match x with
    | inl rc => ret (rc, rep)
    | inr r =>
        if negb (rr_nladdrlen r =? sizeof_sockaddr_nl) then ret (- EPROTO, rr_rep r)
        else if negb (rr_nl_pid r =? 0) then ret (- EINVAL, rr_rep r)
        else ret (set_internal_fields (rr_rep r) (rr_len r))
    end.

(** *** [get_ack] *)

(** [rep.error->error] reads through the union: a null pointer is undefined
    behaviour, any other member is the same address. *)
Definition read_error (rep : audit_reply) : M Z :=
  match rep_view rep with
  | ViewNull => undefined
  | _ => ret (nlmsgerr_error (rep_msg rep))
  end.

(** The comparison of the reply's sequence number with [seq] only logs a
    warning, so it leaves no mark here.  The result of the second, consuming
    [audit_get_reply] is dropped as in the source. *)
Definition get_ack (fd seq : Z) : M Z :=
  if fd <? 0 then ret (- EINVAL)
  else
    w <- get_world ;;
    ' (rc, rep) <- audit_get_reply fd (auto_rep w) GET_REPLY_BLOCKING MSG_PEEK ;;
    if rc <? 0 then ret rc
    else if rep_type rep =? NLMSG_ERROR then
      ' (_, rep) <- audit_get_reply fd rep GET_REPLY_BLOCKING 0 ;;
      e <- read_error rep ;;
      if negb (e =? 0) then ret (s32 (- e)) else ret 0
    else ret 0.

(** *** [audit_send] *)

(** [memcpy(dst, src, n)] into the start of [dst]; reading past [src] or
    writing past [dst] is undefined. *)
Definition memcpy (dst src : list byte) (n : Z) : M (list byte) :=
  if (n <=? Z.of_nat (length src)) && (n <=? Z.of_nat (length dst))
  then ret (firstn (Z.to_nat n) src ++ skipn (Z.to_nat n) dst)
  else undefined.

Definition set_data (d : list byte) (m : audit_message) : audit_message :=
  {| nlh := nlh m; data := d |}.

Definition set_nlmsg_seq (s : Z) (m : audit_message) : audit_message :=
  {| nlh := {| nlmsg_len := nlmsg_len (nlh m); nlmsg_type := nlmsg_type (nlh m);
               nlmsg_flags := nlmsg_flags (nlh m); nlmsg_seq := s;
               nlmsg_pid := nlmsg_pid (nlh m) |};
     data := data m |}.

(** The do-while around [sendto]: repeat while the call fails with
    [EINTR].  [audit_send] supplies more fuel than the script can use up. *)
Fixpoint sendto_loop (fuel : nat) (fd : Z) (req : audit_message) : M Z :=
  match fuel with
  | O => block
  | S fuel' =>
      rc <- sendto fd req (nlmsg_len (nlh req)) ;;
      w <- get_world ;;
      if (rc <? 0) && (errno w =? EINTR)
      then sendto_loop fuel' fd req
      else ret rc
  end.

(** The code after the [out] label: a negative counter is put back to 0. *)
Definition out (rc : Z) : M Z :=
  w <- get_world ;;
  (if sequence w <? 0 then modify (set_sequence 0) else ret tt) ;;;
  ret rc.

(** [audit_send(fd, type, data, size)]; [data] is [None] for a null
    pointer.  [++sequence] wraps to 16 bits, and the 32-bit header field
    receives the counter converted to unsigned. *)
Definition audit_send (fd type : Z) (data : option (list byte)) (size : Z) : M Z :=
  let req :=
    {| nlh := {| nlmsg_len := NLMSG_SPACE size;
                 nlmsg_type := u16 type;
                 nlmsg_flags := Z.lor NLM_F_REQUEST NLM_F_ACK;
                 nlmsg_seq := 0;
                 nlmsg_pid := 0 |};
       data := repeat x00 (Z.to_nat MAX_AUDIT_MESSAGE_LENGTH) |} in
  if fd <? 0 then ret (- EBADF)
  else if MAX_AUDIT_MESSAGE_LENGTH <? NLMSG_SPACE size then ret (- EINVAL)
  else
    req <- match data with
           | Some src =>
               if negb (size =? 0)
               then d <- memcpy (repeat x00 (Z.to_nat MAX_AUDIT_MESSAGE_LENGTH)) src size ;;
                    ret (set_data d req)
               else ret req
           | None => ret req
           end ;;
    modify (fun w => set_sequence (s16 (sequence w + 1)) w) ;;;
    w <- get_world ;;
    let req := set_nlmsg_seq (u32 (sequence w)) req in
    rc <- sendto_loop (S (length (tx_script w))) fd req ;;
    if negb (u32 rc =? nlmsg_len (nlh req)) then out (- EPROTO)
    else if rc <? 0 then w <- get_world ;; out (- errno w)
    else
      w <- get_world ;;
      rc <- get_ack fd (sequence w) ;;
      w <- get_world ;;
      out (if rc =? 0 then sequence w else rc).

(** *** The control operations *)

(** After a successful send with [wmode != WAIT_NO], one non-blocking
    receive whose result is discarded. *)
Definition drain (fd : Z) (wmode : rep_wait_t) : M unit :=
  if negb (rep_wait_t_eqb wmode WAIT_NO) then
    w <- get_world ;;
    audit_get_reply fd (auto_rep w) GET_REPLY_NONBLOCKING 0 ;;;
    ret tt
  else ret tt.

Definition audit_set_pid (fd pid : Z) (wmode : rep_wait_t) : M Z :=
  let status := audit_status_bytes (u32 pid) AUDIT_STATUS_PID in
  rc <- audit_send fd AUDIT_SET (Some status) sizeof_audit_status ;;
  if rc <? 0 then ret rc
  else drain fd wmode ;;; ret 0.

Definition audit_set_logsplit (fd enabled : Z) (wmode : rep_wait_t) : M Z :=
  if negb (enabled =? AUDIT_LOGSPLIT_OFF) && negb (enabled =? AUDIT_LOGSPLIT_ON)
  then ret (- EINVAL)
  else
    let status := audit_logsplit_status_bytes enabled in
    rc <- audit_send fd AUDIT_LOGSPLIT_SET (Some status) (Z.of_nat (length status)) ;;
    if rc <? 0 then ret rc
    else drain fd wmode ;;; ret 0.

End Libaudit.

(** ** Vocabulary for the properties *)

(** The value an outcome returns, if it returns. *)
Definition result {A} (o : outcome A) : option A :=
  match o with
  | Done a _ => Some a
  | _ => None
  end.

(** The state an outcome ends in, if it returns. *)
Definition final {A} (o : outcome A) : option world :=
  match o with
  | Done _ w => Some w
  | _ => None
  end.

(** The socket calls made by the time an outcome is reached. *)
Definition trace_of {A} (o : outcome A) : list syscall :=
  match o with
  | Done _ w => trace w
  | Blocked w => trace w
  | Undefined w => trace w
  end.

(** The state one interrupted [recvfrom(fd, ..., flags, ...)] leaves, and
    the state [n] of them in a row leave. *)
Definition interrupted (fd flags : Z) (w : world) : world :=
  set_errno EINTR
    (set_rx_faults (tl (rx_faults w)) (log_syscall (Recvfrom fd flags) w)).

Fixpoint interrupts (n : nat) (fd flags : Z) (w : world) : world :=
  match n with
  | O => w
  | S n' => interrupts n' fd flags (interrupted fd flags w)
  end.

(** The state a [recvfrom] leaves that took a datagram [d] off the queue
    [d :: q], or peeked at it. *)
Definition delivered (fd flags : Z) (d : datagram) (q : list datagram)
    (w : world) : world :=
  set_rxq (if Z.land flags MSG_PEEK =? 0 then q else d :: q)
    (set_rx_faults (tl (rx_faults w)) (log_syscall (Recvfrom fd flags) w)).

(** The union member [set_internal_fields] aims at the data for a type. *)
Definition view_of_type (t : Z) : reply_view :=
  if t =? NLMSG_ERROR then ViewError
  else if t =? AUDIT_GET then ViewStatus
  else if t =? AUDIT_LIST_RULES then ViewRuleData
  else if t =? AUDIT_SIGNAL_INFO then ViewSignalInfo
  else ViewMessage.

(** The state after the ack wait: the reply was peeked at, and taken off
    the queue if it was of the error type. *)
Definition acked (fd : Z) (d : datagram) (q : list datagram) (w : world) : world :=
  let w1 := delivered fd (recv_flags GET_REPLY_BLOCKING MSG_PEEK) d q w in
  if nlmsg_type (nlh (dg_msg d)) =? NLMSG_ERROR
  then delivered fd (recv_flags GET_REPLY_BLOCKING 0) d q w1
  else w1.

(** What [get_ack] returns for a well-formed reply from the kernel. *)
Definition ack_code (d : datagram) : Z :=
  if nlmsg_type (nlh (dg_msg d)) =? NLMSG_ERROR
  then if nlmsgerr_error (dg_msg d) =? 0 then 0
       else s32 (- nlmsgerr_error (dg_msg d))
  else 0.

(** A computation only ever adds socket calls to the trace. *)
Definition appends {A} (c : M A) : Prop :=
  forall w, exists rest, trace_of (c w) = trace w ++ rest.

Section Vocabulary.
Context `{libaudit_h}.

(** The cleared data area of a request. *)
Definition zeroed_data : list byte := repeat x00 (Z.to_nat MAX_AUDIT_MESSAGE_LENGTH).

(** The request [audit_send] hands to [sendto] for sequence number [seq]. *)
Definition request (type : Z) (data : option (list byte)) (size seq : Z)
    : audit_message :=
  {| nlh := {| nlmsg_len := NLMSG_SPACE size;
               nlmsg_type := u16 type;
               nlmsg_flags := Z.lor NLM_F_REQUEST NLM_F_ACK;
               nlmsg_seq := u32 seq;
               nlmsg_pid := 0 |};
     data := match data with
             | Some src =>
                 if size =? 0 then zeroed_data
                 else firstn (Z.to_nat size) src ++ skipn (Z.to_nat size) zeroed_data
             | None => zeroed_data
             end |}.

(** The bytes of the data area that go on the wire with a request. *)
Definition wire_payload (req : audit_message) : list byte :=
  firstn (Z.to_nat (nlmsg_len (nlh req) - sizeof_nlmsghdr)) (data req).

(** The object [data] points to holds at least [size] bytes. *)
Definition data_covers (data : option (list byte)) (size : Z) : Prop :=
  match data with
  | Some src => size <= Z.of_nat (length src)
  | None => True
  end.

(** The part of [audit_send] that follows the [sendto] loop. *)
Definition after_sendto (fd : Z) (req : audit_message) (rc : Z) : M Z :=
  if negb (u32 rc =? nlmsg_len (nlh req)) then out (- EPROTO)
  else if rc <? 0 then w <- get_world ;; out (- errno w)
  else
    w <- get_world ;;
    rc <- get_ack fd (sequence w) ;;
    w <- get_world ;;
    out (if rc =? 0 then sequence w else rc).

End Vocabulary.

(** ** A concrete header and sample environments *)

(** The capacity 8970 is the one of the audit user-space library; the
    log-split values stand for the vendor's constants. *)
Definition sample_libaudit_h : libaudit_h.
Proof.
  refine {| MAX_AUDIT_MESSAGE_LENGTH := 8970;
            AUDIT_LOGSPLIT_OFF := 0;
            AUDIT_LOGSPLIT_ON := 1;
            AUDIT_LOGSPLIT_SET := 1500;
            audit_logsplit_status_bytes := fun enabled => le32 enabled |}.
  split; [discriminate | reflexivity].
Defined.

Definition zero_nlmsghdr : nlmsghdr :=
  {| nlmsg_len := 0; nlmsg_type := 0; nlmsg_flags := 0; nlmsg_seq := 0; nlmsg_pid := 0 |}.

Definition zero_reply : audit_reply :=
  {| rep_type := 0; rep_len := 0; rep_nlh := false;
     rep_msg := {| nlh := zero_nlmsghdr; data := [] |};
     rep_view := ViewNull |}.

(** A reply structure still holding an earlier error reply. *)
Definition stale_reply : audit_reply :=
  {| rep_type := NLMSG_ERROR; rep_len := 36; rep_nlh := true;
     rep_msg := {| nlh := {| nlmsg_len := 36; nlmsg_type := NLMSG_ERROR;
                             nlmsg_flags := 0; nlmsg_seq := 7; nlmsg_pid := 0 |};
                   data := le32 0 |};
     rep_view := ViewError |}.

(** The kernel's ack to request [seq]: an [NLMSG_ERROR] message of 36 bytes
    whose [struct nlmsgerr] starts with the error code [e]. *)
Definition ack_datagram (e seq : Z) : datagram :=
  {| dg_msg := {| nlh := {| nlmsg_len := 36; nlmsg_type := NLMSG_ERROR;
                            nlmsg_flags := 0; nlmsg_seq := seq; nlmsg_pid := 0 |};
                  data := le32 e |};
     dg_len := 36; dg_nl_pid := 0; dg_addrlen := sizeof_sockaddr_nl |}.

(** A data reply of type [AUDIT_GET] with an empty payload. *)
Definition status_datagram (seq : Z) : datagram :=
  {| dg_msg := {| nlh := {| nlmsg_len := 16; nlmsg_type := AUDIT_GET;
                            nlmsg_flags := 0; nlmsg_seq := seq; nlmsg_pid := 0 |};
                  data := [] |};
     dg_len := 16; dg_nl_pid := 0; dg_addrlen := sizeof_sockaddr_nl |}.

(** The ack as a process other than the kernel would send it. *)
Definition spoofed_datagram : datagram :=
  {| dg_msg := dg_msg (ack_datagram 0 1); dg_len := 36;
     dg_nl_pid := 1234; dg_addrlen := sizeof_sockaddr_nl |}.

(** A datagram whose header declares more bytes than were received. *)
Definition truncated_datagram : datagram :=
  {| dg_msg := dg_msg (ack_datagram 0 1); dg_len := 20;
     dg_nl_pid := 0; dg_addrlen := sizeof_sockaddr_nl |}.

(** A state with counter [s], pending datagrams [q] and no scripted
    failures. *)
Definition quiet_world (s : Z) (q : list datagram) : world :=
  {| sequence := s; errno := 0; rxq := q; rx_faults := []; tx_script := [];
     trace := []; auto_rep := zero_reply |}.

(** An empty socket on which the next two receives are interrupted. *)
Definition interrupted_world : world :=
  {| sequence := 0; errno := 0; rxq := [];
     rx_faults := [Some EINTR; Some EINTR];
     tx_script := []; trace := []; auto_rep := zero_reply |}.

(** A state whose first [sendto] is refused by the peer. *)
Definition refusing_world : world :=
  {| sequence := 0; errno := 0; rxq := []; rx_faults := [];
     tx_script := [TxFail ECONNREFUSED]; trace := []; auto_rep := zero_reply |}.

(** ** Vocabulary for the further properties *)

(** The state an outcome is reached in. *)
Definition end_world {A} (o : outcome A) : world :=
  match o with
  | Done _ w => w
  | Blocked w => w
  | Undefined w => w
  end.

(** The counter as the code after the [out] label leaves it. *)
Definition rolled (s : Z) : Z := if s <? 0 then 0 else s.

(** Every scripted failure of [recvfrom] carries a positive errno. *)
Definition positive_faults (fs : list (option Z)) : Prop :=
  Forall (fun f => match f with Some e => 0 < e | None => True end) fs.

(** The state one interrupted [sendto] of [req] leaves, and the state [n]
    of them in a row leave. *)
Definition tx_interrupted (fd : Z) (req : audit_message) (w : world) : world :=
  set_errno EINTR
    (set_tx_script (tl (tx_script w))
       (log_syscall (Sendto fd req (nlmsg_len (nlh req))) w)).

Fixpoint tx_interrupts (n : nat) (fd : Z) (req : audit_message) (w : world) : world :=
  match n with
  | O => w
  | S n' => tx_interrupts n' fd req (tx_interrupted fd req w)
  end.

(** What a receive with the given flags may change between two states:
    only [recvfrom] calls are added to the trace, and at most the oldest
    datagram leaves the queue, none when [MSG_PEEK] is set. *)
Definition recv_frame (fd flags : Z) (w w' : world) : Prop :=
  sequence w' = sequence w
  /\ tx_script w' = tx_script w
  /\ auto_rep w' = auto_rep w
  /\ (exists n, trace w' = trace w ++ repeat (Recvfrom fd flags) n)
  /\ (rxq w' = rxq w
      \/ (Z.land flags MSG_PEEK =? 0) = true /\ rxq w' = tl (rxq w)).

Section FurtherVocabulary.
Context `{libaudit_h}.

(** The code [audit_get_reply] answers a pending datagram with when it
    turns it away: the sender tests first, then the frame test. *)
Definition reject_code (d : datagram) : Z :=
  if negb (dg_addrlen d =? sizeof_sockaddr_nl) then - EPROTO
  else if negb (dg_nl_pid d =? 0) then - EINVAL
  else if recv_len d =? sizeof_audit_message then - EFBIG
  else - EBADE.

(** A datagram that [audit_get_reply] turns away. *)
Definition rejected (d : datagram) : Prop :=
  dg_addrlen d <> sizeof_sockaddr_nl \/ dg_nl_pid d <> 0
  \/ NLMSG_OK (nlh (dg_msg d)) (recv_len d) = false.

(** The part of [audit_send] between the argument tests and the sequence
    number: the request with the payload copied in. *)
Definition prepare (type : Z) (data : option (list byte)) (size : Z)
    : M audit_message :=
  let req :=
    {| nlh := {| nlmsg_len := NLMSG_SPACE size;
                 nlmsg_type := u16 type;
                 nlmsg_flags := Z.lor NLM_F_REQUEST NLM_F_ACK;
                 nlmsg_seq := 0;
                 nlmsg_pid := 0 |};
       data := repeat x00 (Z.to_nat MAX_AUDIT_MESSAGE_LENGTH) |} in
  match data with
  | Some src =>
      if negb (size =? 0)
      then d <- memcpy (repeat x00 (Z.to_nat MAX_AUDIT_MESSAGE_LENGTH)) src size ;;
           ret (set_data d req)
      else ret req
  | None => ret req
  end.

(** The part of [audit_send] from [++sequence] to the end. *)
Definition transmit (fd : Z) (req : audit_message) : M Z :=
  modify (fun w => set_sequence (s16 (sequence w + 1)) w) ;;;
  w <- get_world ;;
  let req := set_nlmsg_seq (u32 (sequence w)) req in
  rc <- sendto_loop (S (length (tx_script w))) fd req ;;
  after_sendto fd req rc.

(** The part of [audit_send] that follows a complete transmission: the
    ack wait and the choice of the return value. *)
Definition await_ack (fd : Z) : M Z :=
  w <- get_world ;;
  rc <- get_ack fd (sequence w) ;;
  w <- get_world ;;
  out (if rc =? 0 then sequence w else rc).

End FurtherVocabulary.

(** A computation that leaves the sequence counter as it is, however it
    ends. *)
Definition keeps_sequence {A} (c : M A) : Prop :=
  forall w, sequence (end_world (c w)) = sequence w.

(** A socket whose next receive is interrupted and whose receive after
    that fails with [e]. *)
Definition failing_recv_world (e : Z) (q : list datagram) : world :=
  {| sequence := 0; errno := 0; rxq := q;
     rx_faults := [Some EINTR; Some e];
     tx_script := []; trace := []; auto_rep := zero_reply |}.

(** A socket whose next two [sendto] calls are interrupted. *)
Definition interrupted_send_world (q : list datagram) : world :=
  {| sequence := 0; errno := 0; rxq := q; rx_faults := [];
     tx_script := [TxFail EINTR; TxFail EINTR];
     trace := []; auto_rep := zero_reply |}.

(** * Properties *)

Arguments u16 : simpl never.
Arguments u32 : simpl never.
Arguments s16 : simpl never.
Arguments s32 : simpl never.
Arguments NLMSG_ALIGN : simpl never.
Arguments NLMSG_SPACE : simpl never.
Arguments NLMSG_OK : simpl never.
Arguments nlmsgerr_error : simpl never.
Arguments recv_len : simpl never.
Arguments recv_flags : simpl never.
Arguments sizeof_audit_message : simpl never.
Arguments set_internal_fields : simpl never.

(** ** Arithmetic of the framing macros *)

Lemma land_align_mask (y : Z) :
  0 <= y < 4294967296 -> Z.land y (u32 (Z.lnot 3)) = 4 * (y / 4).
Proof.
  intros Hy.
  change (u32 (Z.lnot 3)) with (Z.land (Z.lnot 3) (Z.ones 32)).
  rewrite (Z.land_comm (Z.lnot 3)), Z.land_assoc, Z.land_ones by lia.
  change (2 ^ 32) with 4294967296.
  rewrite Z.mod_small by lia.
  rewrite <- Z.ldiff_land.
  change 3 with (Z.ones 2).
  rewrite Z.ldiff_ones_r, Z.shiftr_div_pow2, Z.shiftl_mul_pow2 by lia.
  change (2 ^ 2) with 4. lia.
Qed.

Lemma u32_range (x : Z) : 0 <= u32 x < 4294967296.
Proof. unfold u32. apply Z.mod_pos_bound. lia. Qed.

Lemma u32_small (x : Z) : 0 <= x < 4294967296 -> u32 x = x.
Proof. intros. unfold u32. apply Z.mod_small. lia. Qed.

Lemma u16_small (x : Z) : 0 <= x < 65536 -> u16 x = x.
Proof. intros. unfold u16. apply Z.mod_small. lia. Qed.

Lemma NLMSG_ALIGN_spec (len : Z) :
  0 <= len -> len + 3 < 4294967296 -> NLMSG_ALIGN len = 4 * ((len + 3) / 4).
Proof.
  intros H0 H1. unfold NLMSG_ALIGN, NLMSG_ALIGNTO.
  replace (len + 4 - 1) with (len + 3) by lia.
  change (4 - 1) with 3.
  rewrite u32_small by lia. apply land_align_mask. lia.
Qed.

Lemma NLMSG_HDRLEN_16 : NLMSG_HDRLEN = 16.
Proof. reflexivity. Qed.

(** Below the wrap-around of the 32-bit arithmetic, [NLMSG_SPACE] is the
    size of header plus payload rounded up to a multiple of four. *)
Lemma NLMSG_SPACE_spec (size : Z) :
  0 <= size -> size + 19 < 4294967296 ->
  NLMSG_SPACE size = 4 * ((sizeof_nlmsghdr + size + 3) / 4).
Proof.
  intros H0 H1. unfold NLMSG_SPACE, NLMSG_LENGTH.
  rewrite NLMSG_HDRLEN_16, u32_small, NLMSG_ALIGN_spec by lia.
  unfold sizeof_nlmsghdr. f_equal. f_equal. lia.
Qed.

(** At the top of the 32-bit range the macro wraps around. *)
Example NLMSG_SPACE_wraps : NLMSG_SPACE 4294967280 = 0.
Proof. reflexivity. Qed.

Lemma NLMSG_SPACE_range (size : Z) : 0 <= NLMSG_SPACE size < 4294967296.
Proof.
  unfold NLMSG_SPACE, NLMSG_ALIGN, NLMSG_ALIGNTO. change (4 - 1) with 3.
  pose proof (u32_range (NLMSG_LENGTH size + 4 - 1)) as Ha.
  rewrite land_align_mask by exact Ha.
  pose proof (Z.mul_div_le (u32 (NLMSG_LENGTH size + 4 - 1)) 4).
  pose proof (Z.div_pos (u32 (NLMSG_LENGTH size + 4 - 1)) 4).
  lia.
Qed.

Lemma dontwait_set (peek : Z) :
  (Z.land (recv_flags GET_REPLY_NONBLOCKING peek) MSG_DONTWAIT =? 0) = false.
Proof.
  apply Z.eqb_neq. intros E.
  assert (B : Z.testbit (Z.land (recv_flags GET_REPLY_NONBLOCKING peek) MSG_DONTWAIT) 6 = true).
  { unfold recv_flags. cbn [reply_t_eqb]. rewrite Z.land_spec, Z.lor_spec. reflexivity. }
  rewrite E in B. discriminate B.
Qed.

(** ** The receiver *)

Section Receiver.
Context `{libaudit_h}.

Lemma recv_len_nonneg (d : datagram) : (recv_len d <? 0) = false.
Proof. apply Z.ltb_ge. unfold recv_len. lia. Qed.

Lemma recvfrom_fails fd rep flags p l w e :
  hd None (rx_faults w) = Some e ->
  recvfrom fd rep flags p l w =
    Done {| rr_len := -1; rr_rep := rep; rr_nl_pid := p; rr_nladdrlen := l |}
         (set_errno e
            (set_rx_faults (tl (rx_faults w)) (log_syscall (Recvfrom fd flags) w))).
Proof.
  intros E. unfold recvfrom, bind, get_world, modify, ret. rewrite E. reflexivity.
Qed.

Lemma recvfrom_delivers fd rep flags p l w d q :
  hd None (rx_faults w) = None -> rxq w = d :: q ->
  recvfrom fd rep flags p l w =
    Done {| rr_len := recv_len d; rr_rep := store_msg (dg_msg d) rep;
            rr_nl_pid := dg_nl_pid d; rr_nladdrlen := dg_addrlen d |}
         (delivered fd flags d q w).
Proof.
  intros E Q. unfold recvfrom, bind, get_world, modify, ret. rewrite E, Q. reflexivity.
Qed.

Lemma recvfrom_would_block fd rep flags p l w :
  hd None (rx_faults w) = None -> rxq w = [] ->
  (Z.land flags MSG_DONTWAIT =? 0) = false ->
  recvfrom fd rep flags p l w =
    Done {| rr_len := -1; rr_rep := rep; rr_nl_pid := p; rr_nladdrlen := l |}
         (set_errno EAGAIN
            (set_rx_faults (tl (rx_faults w)) (log_syscall (Recvfrom fd flags) w))).
Proof.
  intros E Q F. unfold recvfrom, bind, get_world, modify, ret, block.
  rewrite E, Q, F. reflexivity.
Qed.

(** The loop never uses up the fuel [audit_get_reply] gives it: any larger
    amount leads to the same outcome, so an outcome [Blocked] is a receive
    that waits on an empty socket. *)
Lemma get_reply_loop_fuel fuel fd rep blk flags p l w :
  (length (rx_faults w) < fuel)%nat ->
  get_reply_loop fuel fd rep blk flags p l w =
  get_reply_loop (S (length (rx_faults w))) fd rep blk flags p l w.
Proof.
  revert rep p l w. induction fuel as [| fuel IH]; intros rep p l w Hlt; [lia |].
  cbn [get_reply_loop]. unfold bind at 1 3.
  destruct (rx_faults w) as [| [e |] fs] eqn:F.
  - destruct (rxq w) as [| d q] eqn:Q.
    + destruct (Z.land flags MSG_DONTWAIT =? 0) eqn:Fl.
      * unfold recvfrom, bind, get_world, modify, block. rewrite F, Q. cbn [hd]. rewrite Fl.
        reflexivity.
      * rewrite recvfrom_would_block by (rewrite ?F; auto). reflexivity.
    + rewrite (recvfrom_delivers fd rep flags p l w d q) by (rewrite ?F; auto).
      unfold bind, get_world. cbn [rr_len]. rewrite recv_len_nonneg. reflexivity.
  - rewrite (recvfrom_fails fd rep flags p l w e) by (rewrite F; reflexivity).
    unfold bind, get_world. cbn [rr_len rr_rep rr_nl_pid rr_nladdrlen errno set_errno].
    destruct (e =? EINTR); cbn [negb andb Z.ltb Z.compare]; [| reflexivity].
    cbn [length] in Hlt.
    rewrite IH by (cbn; rewrite F; cbn [tl]; lia).
    cbn [rx_faults set_errno set_rx_faults log_syscall]. rewrite F. reflexivity.
  - destruct (rxq w) as [| d q] eqn:Q.
    + destruct (Z.land flags MSG_DONTWAIT =? 0) eqn:Fl.
      * unfold recvfrom, bind, get_world, modify, block. rewrite F, Q. cbn [hd]. rewrite Fl.
        reflexivity.
      * rewrite recvfrom_would_block by (rewrite ?F; auto). reflexivity.
    + rewrite (recvfrom_delivers fd rep flags p l w d q) by (rewrite ?F; auto).
      unfold bind, get_world. cbn [rr_len]. rewrite recv_len_nonneg. reflexivity.
Qed.

(** An interrupted [recvfrom] costs the loop one round and nothing else. *)
Lemma get_reply_loop_interrupted fuel fd rep blk flags p l w :
  hd None (rx_faults w) = Some EINTR ->
  get_reply_loop (S fuel) fd rep blk flags p l w =
  get_reply_loop fuel fd rep blk flags p l (interrupted fd flags w).
Proof.
  intros E. cbn [get_reply_loop]. unfold bind at 1.
  rewrite (recvfrom_fails _ _ _ _ _ _ _ E). reflexivity.
Qed.

Lemma get_reply_loop_interrupts n fuel fd rep blk flags p l w fs :
  rx_faults w = repeat (Some EINTR) n ++ fs ->
  get_reply_loop (n + fuel) fd rep blk flags p l w =
    get_reply_loop fuel fd rep blk flags p l (interrupts n fd flags w)
  /\ rx_faults (interrupts n fd flags w) = fs.
Proof.
  revert w. induction n as [| n IH]; intros w E.
  - split; [reflexivity | exact E].
  - cbn [Nat.add interrupts].
    rewrite get_reply_loop_interrupted by (rewrite E; reflexivity).
    apply IH. cbn. rewrite E. reflexivity.
Qed.

(** Interrupted receives are retried: after any number of them the call
    goes on as one started afresh in the state they left. *)
Lemma audit_get_reply_interrupts n fd rep blk peek w fs :
  0 <= fd ->
  rx_faults w = repeat (Some EINTR) n ++ fs ->
  audit_get_reply fd rep blk peek w =
  audit_get_reply fd rep blk peek (interrupts n fd (recv_flags blk peek) w).
Proof.
  intros Hfd E. unfold audit_get_reply.
  apply Z.ltb_ge in Hfd. rewrite Hfd.
  unfold bind at 1 3, get_world.
  destruct (get_reply_loop_interrupts n (S (length fs)) fd rep blk
              (recv_flags blk peek) 0 sizeof_sockaddr_nl w fs E) as [L R].
  rewrite R, E, length_app, repeat_length.
  replace (S (n + length fs))%nat with (n + S (length fs))%nat by lia.
  unfold bind. rewrite L. reflexivity.
Qed.

(** Where the receive finds a datagram, the result is what the sender
    checks and the decoder make of it. *)
Lemma audit_get_reply_delivers fd rep blk peek w d q :
  0 <= fd ->
  hd None (rx_faults w) = None -> rxq w = d :: q ->
  audit_get_reply fd rep blk peek w =
    Done (if negb (dg_addrlen d =? sizeof_sockaddr_nl)
          then (- EPROTO, store_msg (dg_msg d) rep)
          else if negb (dg_nl_pid d =? 0)
          then (- EINVAL, store_msg (dg_msg d) rep)
          else set_internal_fields (store_msg (dg_msg d) rep) (recv_len d))
         (delivered fd (recv_flags blk peek) d q w).
Proof.
  intros Hfd E Q. unfold audit_get_reply.
  apply Z.ltb_ge in Hfd. rewrite Hfd.
  cbn [get_reply_loop]. unfold bind, get_world.
  rewrite (recvfrom_delivers _ _ _ _ _ _ _ _ E Q).
  cbn [rr_len rr_rep rr_nl_pid rr_nladdrlen].
  rewrite recv_len_nonneg. cbn [andb]. unfold ret.
  cbn [rr_len rr_rep rr_nl_pid rr_nladdrlen].
  destruct (negb (dg_addrlen d =? sizeof_sockaddr_nl)); [reflexivity |].
  destruct (negb (dg_nl_pid d =? 0)); [reflexivity |].
  destruct (set_internal_fields _ _); reflexivity.
Qed.

(** On an empty socket the non-blocking receive returns 0 and hands the
    reply structure back as it got it. *)
Lemma audit_get_reply_would_block fd rep peek w :
  0 <= fd ->
  hd None (rx_faults w) = None -> rxq w = [] ->
  audit_get_reply fd rep GET_REPLY_NONBLOCKING peek w =
    Done (0, rep)
         (set_errno EAGAIN
            (set_rx_faults (tl (rx_faults w))
               (log_syscall (Recvfrom fd (recv_flags GET_REPLY_NONBLOCKING peek)) w))).
Proof.
  intros Hfd E Q. unfold audit_get_reply.
  apply Z.ltb_ge in Hfd. rewrite Hfd.
  cbn [get_reply_loop]. unfold bind, get_world.
  rewrite (recvfrom_would_block _ _ _ _ _ _ E Q (dontwait_set peek)).
  reflexivity.
Qed.

Lemma interrupts_rxq n fd flags w : rxq (interrupts n fd flags w) = rxq w.
Proof. revert w. induction n as [| n IH]; intros w; [reflexivity |]. cbn. now rewrite IH. Qed.

Lemma interrupts_sequence n fd flags w :
  sequence (interrupts n fd flags w) = sequence w.
Proof. revert w. induction n as [| n IH]; intros w; [reflexivity |]. cbn. now rewrite IH. Qed.

End Receiver.

(** ** Claims about the receiver *)

Section ReceiverClaims.
Context `{libaudit_h}.

(** C5, amended.  A datagram whose sender address has the expected length
    and a nonzero netlink pid is rejected with [-EINVAL], whatever it
    contains; a sender address of any other length is rejected with
    [-EPROTO], and this test comes first.  [-EINVAL] is the code the library
    also returns for invalid arguments. *)
Theorem audit_get_reply_rejects_sender fd rep blk peek w d q :
  0 <= fd -> hd None (rx_faults w) = None -> rxq w = d :: q ->
  (dg_addrlen d <> sizeof_sockaddr_nl ->
     result (audit_get_reply fd rep blk peek w)
       = Some (- EPROTO, store_msg (dg_msg d) rep))
  /\ (dg_addrlen d = sizeof_sockaddr_nl -> dg_nl_pid d <> 0 ->
     result (audit_get_reply fd rep blk peek w)
       = Some (- EINVAL, store_msg (dg_msg d) rep)).
Proof.
  intros Hfd E Q.
  rewrite (audit_get_reply_delivers fd rep blk peek w d q Hfd E Q).
  split.
  - intros L. apply Z.eqb_neq in L. rewrite L. reflexivity.
  - intros L P. apply Z.eqb_eq in L. apply Z.eqb_neq in P.
    rewrite L, P. reflexivity.
Qed.

(** C7.  A datagram from the kernel whose declared frame length fails
    [NLMSG_OK] against the received byte count is rejected: with [-EFBIG]
    when the byte count equals the capacity of the receive buffer, with
    [-EBADE] otherwise. *)
Theorem audit_get_reply_bad_frame fd rep blk peek w d q :
  0 <= fd -> hd None (rx_faults w) = None -> rxq w = d :: q ->
  dg_addrlen d = sizeof_sockaddr_nl -> dg_nl_pid d = 0 ->
  NLMSG_OK (nlh (dg_msg d)) (recv_len d) = false ->
  option_map fst (result (audit_get_reply fd rep blk peek w))
    = Some (if recv_len d =? sizeof_audit_message then - EFBIG else - EBADE).
Proof.
  intros Hfd E Q L P Bad.
  rewrite (audit_get_reply_delivers fd rep blk peek w d q Hfd E Q).
  apply Z.eqb_eq in L. apply Z.eqb_eq in P. rewrite L, P.
  cbn [negb result option_map]. unfold set_internal_fields.
  cbn [decode rep_msg store_msg]. rewrite Bad. cbn [negb].
  reflexivity.
Qed.

(** C6, amended.  On a socket with nothing pending, a non-blocking receive
    returns 0 after any number of interrupted attempts and leaves the
    caller's reply structure as it was, writing no empty reply into it;
    the queue stays empty and the sequence counter is not touched.  In
    blocking mode, after any number of interrupted attempts the receive
    goes on as a receive started in the state they left. *)
Theorem audit_get_reply_nothing_pending fd rep peek w n :
  0 <= fd -> rxq w = [] ->
  (rx_faults w = repeat (Some EINTR) n ->
     exists w',
       audit_get_reply fd rep GET_REPLY_NONBLOCKING peek w = Done (0, rep) w'
       /\ rxq w' = [] /\ sequence w' = sequence w)
  /\ (forall fs, rx_faults w = repeat (Some EINTR) n ++ fs ->
     audit_get_reply fd rep GET_REPLY_BLOCKING peek w =
     audit_get_reply fd rep GET_REPLY_BLOCKING peek
       (interrupts n fd (recv_flags GET_REPLY_BLOCKING peek) w)).
Proof.
  intros Hfd Q. split.
  - intros E.
    assert (E' : rx_faults w = repeat (Some EINTR) n ++ []) by (rewrite app_nil_r; exact E).
    rewrite (audit_get_reply_interrupts n fd rep _ peek w [] Hfd E').
    destruct (get_reply_loop_interrupts n 0 fd rep GET_REPLY_NONBLOCKING
                (recv_flags GET_REPLY_NONBLOCKING peek) 0 0 w [] E') as [_ R].
    rewrite audit_get_reply_would_block.
    + eexists. split; [reflexivity |]. cbn.
      rewrite interrupts_rxq, interrupts_sequence. auto.
    + exact Hfd.
    + rewrite R. reflexivity.
    + rewrite interrupts_rxq. exact Q.
  - intros fs E. apply (audit_get_reply_interrupts n fd rep _ peek w fs Hfd E).
Qed.

End ReceiverClaims.

(** A spoofed ack on an otherwise quiet socket is rejected with [-EINVAL]. *)
Lemma audit_get_reply_rejects_sender_witness :
  result (audit_get_reply (H := sample_libaudit_h) 3 zero_reply GET_REPLY_BLOCKING 0
            (quiet_world 0 [spoofed_datagram]))
  = Some (- EINVAL, store_msg (dg_msg spoofed_datagram) zero_reply).
Proof.
  apply (audit_get_reply_rejects_sender (H := sample_libaudit_h)
           3 zero_reply GET_REPLY_BLOCKING 0
           (quiet_world 0 [spoofed_datagram]) spoofed_datagram []);
    [lia | reflexivity | reflexivity | reflexivity | discriminate].
Defined.

(** C5 as stated fails: no class of codes that excludes [-EINVAL], the code
    of an invalid argument, contains the result for every datagram with a
    nonzero sender pid. *)
Lemma spoofed_reply_is_EINVAL :
  ~ (exists SecurityError : Z -> Prop,
       ~ SecurityError (- EINVAL) /\
       forall d q, dg_nl_pid d <> 0 ->
         exists rc rep' w',
           audit_get_reply (H := sample_libaudit_h) 3 zero_reply
             GET_REPLY_BLOCKING 0 (quiet_world 0 (d :: q)) = Done (rc, rep') w'
           /\ SecurityError rc).
Proof.
  intros (SecurityError & Hnot & Hall).
  destruct (Hall spoofed_datagram []) as (rc & rep' & w' & E & S).
  - discriminate.
  - vm_compute in E. injection E as <- _ _. exact (Hnot S).
Qed.

Lemma audit_get_reply_bad_frame_witness :
  option_map fst
    (result (audit_get_reply (H := sample_libaudit_h) 3 zero_reply
               GET_REPLY_BLOCKING 0 (quiet_world 0 [truncated_datagram])))
  = Some (- EBADE).
Proof.
  apply (audit_get_reply_bad_frame (H := sample_libaudit_h)
           3 zero_reply GET_REPLY_BLOCKING 0
           (quiet_world 0 [truncated_datagram]) truncated_datagram []);
    [lia | reflexivity | reflexivity | reflexivity | reflexivity | reflexivity].
Defined.

Lemma audit_get_reply_nothing_pending_witness :
  (exists w',
     audit_get_reply (H := sample_libaudit_h) 3 stale_reply
       GET_REPLY_NONBLOCKING 0 interrupted_world = Done (0, stale_reply) w'
     /\ rxq w' = [] /\ sequence w' = sequence interrupted_world)
  /\ audit_get_reply (H := sample_libaudit_h) 3 stale_reply
       GET_REPLY_BLOCKING 0 interrupted_world
     = audit_get_reply (H := sample_libaudit_h) 3 stale_reply
         GET_REPLY_BLOCKING 0
         (interrupts 2 3 (recv_flags GET_REPLY_BLOCKING 0) interrupted_world).
Proof.
  destruct (audit_get_reply_nothing_pending (H := sample_libaudit_h)
              3 stale_reply 0 interrupted_world 2) as [A B];
    [lia | reflexivity |].
  split; [apply A; reflexivity | apply (B []); reflexivity].
Defined.

(** C6 as stated fails: there is no one empty reply that the non-blocking
    receive hands back on an empty socket; the reply structure comes back
    with whatever it held before the call. *)
Lemma would_block_reply_not_empty :
  ~ (exists empty : audit_reply,
       forall rep, exists w',
         audit_get_reply (H := sample_libaudit_h) 3 rep GET_REPLY_NONBLOCKING 0
           (quiet_world 0 []) = Done (0, empty) w').
Proof.
  intros (empty & Hall).
  destruct (Hall zero_reply) as (w1 & E1).
  destruct (Hall stale_reply) as (w2 & E2).
  vm_compute in E1. vm_compute in E2.
  injection E1 as <- _. injection E2 as E2 _. discriminate E2.
Qed.

(** ** The sender *)

Section Sender.
Context `{libaudit_h}.

Lemma zeroed_data_length : Z.of_nat (length zeroed_data) = MAX_AUDIT_MESSAGE_LENGTH.
Proof.
  unfold zeroed_data. rewrite repeat_length, Z2Nat.id; [reflexivity |].
  apply MAX_AUDIT_MESSAGE_LENGTH_int.
Qed.

(** A payload within bounds passes the size test, and fits the data area. *)
Lemma within_bounds_space (size : Z) :
  0 <= size ->
  4 * ((sizeof_nlmsghdr + size + 3) / 4) <= MAX_AUDIT_MESSAGE_LENGTH ->
  NLMSG_SPACE size = 4 * ((sizeof_nlmsghdr + size + 3) / 4)
  /\ (MAX_AUDIT_MESSAGE_LENGTH <? NLMSG_SPACE size) = false
  /\ size <= MAX_AUDIT_MESSAGE_LENGTH.
Proof.
  intros H0 HB. pose proof MAX_AUDIT_MESSAGE_LENGTH_int as HM.
  unfold sizeof_nlmsghdr in *.
  assert (size + 16 <= 4 * ((16 + size + 3) / 4)).
  { pose proof (Z.div_mod (16 + size + 3) 4).
    pose proof (Z.mod_pos_bound (16 + size + 3) 4). lia. }
  rewrite NLMSG_SPACE_spec by lia. unfold sizeof_nlmsghdr.
  repeat split; [apply Z.ltb_ge; lia | lia].
Qed.

Lemma audit_send_unfold fd type data size w :
  0 <= fd -> 0 <= size ->
  4 * ((sizeof_nlmsghdr + size + 3) / 4) <= MAX_AUDIT_MESSAGE_LENGTH ->
  data_covers data size ->
  audit_send fd type data size w =
    (let req := request type data size (s16 (sequence w + 1)) in
     rc <- sendto_loop (S (length (tx_script w))) fd req ;;
     after_sendto fd req rc)
    (set_sequence (s16 (sequence w + 1)) w).
Proof.
  intros Hfd H0 HB HD.
  destruct (within_bounds_space size H0 HB) as (_ & HS & HM).
  unfold audit_send. apply Z.ltb_ge in Hfd. rewrite Hfd, HS.
  destruct data as [src |]; cbn [data_covers] in HD.
  - destruct (Z.eqb_spec size 0) as [-> | Hnz]; cbn [negb].
    + reflexivity.
    + unfold memcpy. fold zeroed_data. rewrite zeroed_data_length.
      apply Z.leb_le in HD, HM. rewrite HD, HM.
      apply Z.eqb_neq in Hnz.
      unfold request. rewrite Hnz. reflexivity.
  - reflexivity.
Qed.

(** *** Every computation of the library only adds to the trace *)

Lemma appends_ret {A} (a : A) : appends (ret a).
Proof. intros w. exists []. cbn. now rewrite app_nil_r. Qed.

Lemma appends_block {A} : appends (@block A).
Proof. intros w. exists []. cbn. now rewrite app_nil_r. Qed.

Lemma appends_undefined {A} : appends (@undefined A).
Proof. intros w. exists []. cbn. now rewrite app_nil_r. Qed.

Lemma appends_get_world : appends get_world.
Proof. intros w. exists []. cbn. now rewrite app_nil_r. Qed.

Lemma appends_modify (f : world -> world) :
  (forall w, exists rest, trace (f w) = trace w ++ rest) -> appends (modify f).
Proof. intros Hf w. exact (Hf w). Qed.

Lemma appends_bind {A B} (c : M A) (k : A -> M B) :
  appends c -> (forall a, appends (k a)) -> appends (bind c k).
Proof.
  intros Hc Hk w. unfold bind. destruct (Hc w) as [r1 E1].
  destruct (c w) as [a w' | w' | w']; cbn in E1 |- *.
  - destruct (Hk a w') as [r2 E2]. exists (r1 ++ r2).
    rewrite E2, E1, app_assoc. reflexivity.
  - exists r1. exact E1.
  - exists r1. exact E1.
Qed.

Lemma appends_if {A} (b : bool) (c1 c2 : M A) :
  appends c1 -> appends c2 -> appends (if b then c1 else c2).
Proof. destruct b; auto. Qed.

Create HintDb appends.

Ltac appends_step :=
  first
    [ solve [auto with appends nocore]
    | apply appends_ret | apply appends_block | apply appends_undefined
    | apply appends_get_world
    | apply appends_bind; [| intros ?]
    | apply appends_if
    | apply appends_modify; intros ?; cbn;
      first [ now (exists []; rewrite app_nil_r) | now eexists ] ].

Lemma appends_recvfrom fd rep flags p l : appends (recvfrom fd rep flags p l).
Proof.
  unfold recvfrom. repeat appends_step.
  destruct (hd None (rx_faults a)); [repeat appends_step |].
  destruct (rxq a); repeat appends_step.
Qed.
#[local] Hint Resolve appends_recvfrom : appends.

Lemma appends_sendto fd req len : appends (sendto fd req len).
Proof.
  unfold sendto. repeat appends_step.
  destruct (tx_script a) as [| [e | n] s]; repeat appends_step.
Qed.
#[local] Hint Resolve appends_sendto : appends.

Lemma appends_get_reply_loop fuel fd rep blk flags p l :
  appends (get_reply_loop fuel fd rep blk flags p l).
Proof.
  revert rep p l. induction fuel as [| fuel IH]; intros rep p l; cbn [get_reply_loop].
  - apply appends_block.
  - apply appends_bind; [apply appends_recvfrom | intros r].
    apply appends_bind; [apply appends_get_world | intros w].
    repeat apply appends_if; try apply appends_ret. apply IH.
Qed.
#[local] Hint Resolve appends_get_reply_loop : appends.

Lemma appends_audit_get_reply fd rep blk peek :
  appends (audit_get_reply fd rep blk peek).
Proof.
  unfold audit_get_reply. repeat appends_step.
  destruct a0; repeat appends_step.
Qed.
#[local] Hint Resolve appends_audit_get_reply : appends.

Lemma appends_get_ack fd seq : appends (get_ack fd seq).
Proof.
  unfold get_ack. repeat appends_step.
  destruct a0 as [rc rep]. repeat appends_step.
  destruct a0 as [rc' rep']. repeat appends_step.
  unfold read_error. destruct (rep_view rep'); repeat appends_step.
Qed.
#[local] Hint Resolve appends_get_ack : appends.

Lemma appends_sendto_loop fuel fd req : appends (sendto_loop fuel fd req).
Proof.
  induction fuel as [| fuel IH]; cbn [sendto_loop].
  - apply appends_block.
  - apply appends_bind; [apply appends_sendto | intros rc].
    apply appends_bind; [apply appends_get_world | intros w].
    apply appends_if; [exact IH | apply appends_ret].
Qed.
#[local] Hint Resolve appends_sendto_loop : appends.

Lemma appends_out rc : appends (out rc).
Proof. unfold out. repeat appends_step. Qed.
#[local] Hint Resolve appends_out : appends.

Lemma appends_after_sendto fd req rc : appends (after_sendto fd req rc).
Proof. unfold after_sendto. repeat appends_step. Qed.

Lemma appends_audit_send fd type data size : appends (audit_send fd type data size).
Proof.
  unfold audit_send. repeat appends_step.
  destruct data; repeat appends_step.
Qed.

(** *** Stepping through [audit_send] *)

Lemma first_call {A B} (c : M A) (k : A -> M B) w a w' :
  c w = Done a w' -> appends (k a) ->
  exists rest, trace_of (bind c k w) = trace w' ++ rest.
Proof. intros E Hk. unfold bind. rewrite E. apply Hk. Qed.

Lemma sendto_logs fd req len w :
  exists rc w', sendto fd req len w = Done rc w'
                /\ trace w' = trace w ++ [Sendto fd req len].
Proof.
  unfold sendto, bind, get_world, modify, ret.
  destruct (tx_script w) as [| [e | n] s]; eauto.
Qed.

(** Whatever the environment does, the first socket call of a send that
    passes the argument tests is the [sendto] of the request. *)
Lemma audit_send_first_call fd type data size w :
  0 <= fd -> 0 <= size ->
  4 * ((sizeof_nlmsghdr + size + 3) / 4) <= MAX_AUDIT_MESSAGE_LENGTH ->
  data_covers data size ->
  exists rest,
    trace_of (audit_send fd type data size w) =
    trace w ++ Sendto fd (request type data size (s16 (sequence w + 1)))
                 (NLMSG_SPACE size) :: rest.
Proof.
  intros Hfd H0 HB HD. rewrite audit_send_unfold by assumption.
  cbv zeta. cbn [length sendto_loop].
  set (req := request type data size (s16 (sequence w + 1))).
  set (w1 := set_sequence (s16 (sequence w + 1)) w).
  destruct (sendto_logs fd req (nlmsg_len (nlh req)) w1) as (rc & w2 & E & T).
  unfold bind at 1 2. rewrite E.
  assert (K : appends (fun w0 =>
                match (w <- get_world ;;
                       if (rc <? 0) && (errno w =? EINTR)
                       then sendto_loop (length (tx_script w1)) fd req
                       else ret rc) w0 with
                | Done a w' => after_sendto fd req a w'
                | Blocked w' => Blocked w'
                | Undefined w' => Undefined w'
                end)).
  { change (appends (bind (w <- get_world ;;
                       if (rc <? 0) && (errno w =? EINTR)
                       then sendto_loop (length (tx_script w1)) fd req
                       else ret rc) (after_sendto fd req))).
    apply appends_bind; [| intros; apply appends_after_sendto].
    repeat appends_step. }
  destruct (K w2) as [rest R]. exists rest.
  change (tx_script w) with (tx_script w1).
  rewrite R, T. subst w1. cbn [trace set_sequence]. rewrite <- app_assoc. reflexivity.
Qed.

Lemma sendto_fails fd req len w e s :
  tx_script w = TxFail e :: s ->
  sendto fd req len w =
    Done (-1) (set_errno e (set_tx_script s (log_syscall (Sendto fd req len) w))).
Proof.
  intros E. unfold sendto, bind, get_world, modify, ret. rewrite E. reflexivity.
Qed.

Lemma sendto_short fd req len w n s :
  tx_script w = TxAccept n :: s ->
  sendto fd req len w =
    Done (Z.max 0 (Z.min n len))
         (set_tx_script s (log_syscall (Sendto fd req len) w)).
Proof.
  intros E. unfold sendto, bind, get_world, modify, ret. rewrite E. reflexivity.
Qed.

Lemma sendto_full fd req len w :
  tx_script w = [] ->
  sendto fd req len w =
    Done len (set_tx_script [] (log_syscall (Sendto fd req len) w)).
Proof.
  intros E. unfold sendto, bind, get_world, modify, ret. rewrite E. reflexivity.
Qed.

Lemma sendto_loop_fails fuel fd req w e s :
  tx_script w = TxFail e :: s -> e <> EINTR ->
  sendto_loop (S fuel) fd req w =
    Done (-1) (set_errno e (set_tx_script s
                 (log_syscall (Sendto fd req (nlmsg_len (nlh req))) w))).
Proof.
  intros E Hne. cbn [sendto_loop]. unfold bind, get_world.
  rewrite (sendto_fails _ _ _ _ _ _ E). cbn [errno set_errno].
  apply Z.eqb_neq in Hne. rewrite Hne. reflexivity.
Qed.

Lemma sendto_loop_short fuel fd req w n s :
  tx_script w = TxAccept n :: s ->
  sendto_loop (S fuel) fd req w =
    Done (Z.max 0 (Z.min n (nlmsg_len (nlh req))))
         (set_tx_script s (log_syscall (Sendto fd req (nlmsg_len (nlh req))) w)).
Proof.
  intros E. cbn [sendto_loop]. unfold bind, get_world.
  rewrite (sendto_short _ _ _ _ _ _ E).
  replace (Z.max 0 (Z.min n (nlmsg_len (nlh req))) <? 0) with false
    by (symmetry; apply Z.ltb_ge; lia).
  reflexivity.
Qed.

Lemma sendto_loop_full fuel fd req w :
  tx_script w = [] -> 0 <= nlmsg_len (nlh req) ->
  sendto_loop (S fuel) fd req w =
    Done (nlmsg_len (nlh req))
         (set_tx_script [] (log_syscall (Sendto fd req (nlmsg_len (nlh req))) w)).
Proof.
  intros E Hlen. cbn [sendto_loop]. unfold bind, get_world.
  rewrite (sendto_full _ _ _ _ E).
  apply Z.ltb_ge in Hlen. rewrite Hlen. reflexivity.
Qed.

Lemma sendto_loop_interrupted fuel fd req w s :
  tx_script w = TxFail EINTR :: s ->
  sendto_loop (S fuel) fd req w =
  sendto_loop fuel fd req
    (set_errno EINTR
       (set_tx_script s (log_syscall (Sendto fd req (nlmsg_len (nlh req))) w))).
Proof.
  intros E. cbn [sendto_loop]. unfold bind, get_world.
  rewrite (sendto_fails _ _ _ _ _ _ E). reflexivity.
Qed.

(** The [sendto] loop always returns, and never uses up its fuel. *)
Lemma sendto_loop_fuel fuel fd req w :
  0 <= nlmsg_len (nlh req) ->
  (length (tx_script w) < fuel)%nat ->
  sendto_loop fuel fd req w =
  sendto_loop (S (length (tx_script w))) fd req w
  /\ exists rc w', sendto_loop fuel fd req w = Done rc w'.
Proof.
  intros Hlen.
  revert w. induction fuel as [| fuel IH]; intros w Hlt; [lia |].
  destruct (tx_script w) as [| [e | n] s] eqn:T.
  - rewrite !(sendto_loop_full _ fd req w T Hlen). eauto.
  - destruct (Z.eq_dec e EINTR) as [-> | Hne].
    + rewrite !(sendto_loop_interrupted _ fd req w s T).
      cbn [length] in Hlt.
      apply (IH (set_errno EINTR (set_tx_script s
                   (log_syscall (Sendto fd req (nlmsg_len (nlh req))) w)))).
      cbn. lia.
    + rewrite !(sendto_loop_fails _ fd req w e s T Hne). eauto.
  - rewrite !(sendto_loop_short _ fd req w n s T). eauto.
Qed.

(** Once the [sendto] loop has returned, the send goes on with the tests
    on its result. *)
Lemma audit_send_after fd type data size w rc w2 :
  0 <= fd -> 0 <= size ->
  4 * ((sizeof_nlmsghdr + size + 3) / 4) <= MAX_AUDIT_MESSAGE_LENGTH ->
  data_covers data size ->
  sendto_loop (S (length (tx_script w))) fd
    (request type data size (s16 (sequence w + 1)))
    (set_sequence (s16 (sequence w + 1)) w) = Done rc w2 ->
  audit_send fd type data size w =
  after_sendto fd (request type data size (s16 (sequence w + 1))) rc w2.
Proof.
  intros Hfd H0 HB HD E. rewrite audit_send_unfold by assumption.
  cbv zeta. unfold bind. rewrite E. reflexivity.
Qed.

Lemma out_spec rc w :
  out rc w = Done rc (if sequence w <? 0 then set_sequence 0 w else w).
Proof.
  unfold out, bind, get_world, modify, ret. destruct (sequence w <? 0); reflexivity.
Qed.

End Sender.

(** ** Claims about the sender *)

Section SenderClaims.
Context `{libaudit_h}.

Lemma firstn_repeat_le {A} (x : A) (n m : nat) :
  (n <= m)%nat -> firstn n (repeat x m) = repeat x n.
Proof.
  revert m. induction n as [| n IH]; intros m Hm; [reflexivity |].
  destruct m as [| m]; [lia |]. cbn. f_equal. apply IH. lia.
Qed.

(** What the two argument tests do turn away.  A send on a negative
    descriptor returns [-EBADF], and a send for which [NLMSG_SPACE(size)],
    as the 32-bit arithmetic computes it, exceeds
    [MAX_AUDIT_MESSAGE_LENGTH] returns [-EINVAL]; both return in the state
    they were called in: the sequence counter is as it was and the trace
    has no new socket call. *)
Lemma audit_send_rejects_arguments fd type data size w :
  fd < 0 \/ MAX_AUDIT_MESSAGE_LENGTH < NLMSG_SPACE size ->
  audit_send fd type data size w
    = Done (if fd <? 0 then - EBADF else - EINVAL) w.
Proof.
  intros Hbad. unfold audit_send.
  destruct (Z.ltb_spec fd 0) as [Hfd | Hfd]; [reflexivity |].
  destruct Hbad as [Hneg | Hs]; [lia |].
  apply Z.ltb_lt in Hs. rewrite Hs. reflexivity.
Qed.

(** C4.  A send on a negative descriptor returns [-EBADF], whatever the
    payload.  A send on a valid descriptor whose payload, framed (header
    plus payload, rounded up to the netlink alignment), is longer than
    [MAX_AUDIT_MESSAGE_LENGTH] returns [-EINVAL].  Both return in the state
    they were called in: the sequence counter is as it was and the trace
    has no new socket call.  The size is that of a payload structure, as
    both callers pass it: an unsigned value whose framing stays within the
    32-bit arithmetic of [NLMSG_SPACE]. *)
Theorem audit_send_invalid_argument fd type data size w :
  (fd < 0 -> audit_send fd type data size w = Done (- EBADF) w)
  /\ (0 <= fd -> 0 <= size -> size + 19 < 4294967296 ->
      MAX_AUDIT_MESSAGE_LENGTH < 4 * ((sizeof_nlmsghdr + size + 3) / 4) ->
      audit_send fd type data size w = Done (- EINVAL) w).
Proof.
  split.
  - intros Hfd.
    rewrite (audit_send_rejects_arguments fd type data size w) by (left; exact Hfd).
    apply Z.ltb_lt in Hfd. rewrite Hfd. reflexivity.
  - intros Hfd H0 Hw Hbig.
    rewrite (audit_send_rejects_arguments fd type data size w)
      by (right; rewrite NLMSG_SPACE_spec by assumption; exact Hbig).
    apply Z.ltb_ge in Hfd. rewrite Hfd. reflexivity.
Qed.

(** C8.  With a flag that is neither [AUDIT_LOGSPLIT_OFF] nor
    [AUDIT_LOGSPLIT_ON], [audit_set_logsplit] returns [-EINVAL] in the
    state it was called in: no socket call, no change of the counter. *)
Theorem audit_set_logsplit_rejects_flag fd enabled wmode w :
  enabled <> AUDIT_LOGSPLIT_OFF -> enabled <> AUDIT_LOGSPLIT_ON ->
  audit_set_logsplit fd enabled wmode w = Done (- EINVAL) w.
Proof.
  intros Hoff Hon. unfold audit_set_logsplit.
  apply Z.eqb_neq in Hoff, Hon. rewrite Hoff, Hon. reflexivity.
Qed.

(** C9.  For a payload within bounds, the first socket call of the send is
    the [sendto] of a frame whose length field is the size of header plus
    payload rounded up to the netlink alignment, whose type field is the
    requested type and whose flags are [NLM_F_REQUEST | NLM_F_ACK]; the
    whole frame is handed over. *)
Theorem audit_send_builds_frame fd type data size w :
  0 <= fd -> 0 <= type < 65536 -> 0 <= size ->
  4 * ((sizeof_nlmsghdr + size + 3) / 4) <= MAX_AUDIT_MESSAGE_LENGTH ->
  data_covers data size ->
  exists req rest,
    trace_of (audit_send fd type data size w) =
      trace w ++ Sendto fd req (nlmsg_len (nlh req)) :: rest
    /\ nlmsg_len (nlh req) = 4 * ((sizeof_nlmsghdr + size + 3) / 4)
    /\ nlmsg_type (nlh req) = type
    /\ nlmsg_flags (nlh req) = Z.lor NLM_F_REQUEST NLM_F_ACK.
Proof.
  intros Hfd Ht H0 HB HD.
  destruct (audit_send_first_call fd type data size w Hfd H0 HB HD) as [rest E].
  destruct (within_bounds_space size H0 HB) as (HS & _ & _).
  exists (request type data size (s16 (sequence w + 1))), rest.
  cbn [request nlh nlmsg_len nlmsg_type nlmsg_flags].
  rewrite u16_small by exact Ht. auto.
Qed.

(** C10.  A send with a null data pointer and a nonzero size within bounds
    is not turned away: its first socket call is the [sendto] of a frame
    whose length field is the aligned size of header plus [size], and
    whose payload on the wire is all zero bytes. *)
Theorem audit_send_null_data fd type size w :
  0 <= fd -> 0 < size ->
  4 * ((sizeof_nlmsghdr + size + 3) / 4) <= MAX_AUDIT_MESSAGE_LENGTH ->
  exists req rest,
    trace_of (audit_send fd type None size w) =
      trace w ++ Sendto fd req (nlmsg_len (nlh req)) :: rest
    /\ nlmsg_len (nlh req) = 4 * ((sizeof_nlmsghdr + size + 3) / 4)
    /\ wire_payload req =
         repeat x00 (Z.to_nat (4 * ((sizeof_nlmsghdr + size + 3) / 4) - sizeof_nlmsghdr))
    /\ (Z.to_nat size <= length (wire_payload req))%nat.
Proof.
  intros Hfd H0 HB.
  assert (H0' : 0 <= size) by lia.
  destruct (audit_send_first_call fd type None size w Hfd H0' HB I) as [rest E].
  destruct (within_bounds_space size H0' HB) as (HS & _ & HM).
  exists (request type None size (s16 (sequence w + 1))), rest.
  assert (P : wire_payload (request type None size (s16 (sequence w + 1))) =
              repeat x00 (Z.to_nat (4 * ((sizeof_nlmsghdr + size + 3) / 4)
                                    - sizeof_nlmsghdr))).
  { unfold wire_payload. cbn [request nlh nlmsg_len data]. rewrite HS.
    unfold zeroed_data. apply firstn_repeat_le.
    pose proof MAX_AUDIT_MESSAGE_LENGTH_int. unfold sizeof_nlmsghdr in *. lia. }
  repeat split.
  - exact E.
  - exact HS.
  - exact P.
  - rewrite P, repeat_length. unfold sizeof_nlmsghdr in *.
    pose proof (Z.div_mod (16 + size + 3) 4).
    pose proof (Z.mod_pos_bound (16 + size + 3) 4). lia.
Qed.

(** C2, what the code does.  When [sendto] fails with an errno other than
    [EINTR], or accepts fewer bytes than the frame has, the send returns
    [-EPROTO] after that one call.  The errno of a failed [sendto] never
    reaches the caller: [(uint32_t) rc != nlmsg_len] is tested first and
    holds for [rc = -1]. *)
Theorem audit_send_sendto_fails fd type data size w ev s :
  0 <= fd -> 0 <= size ->
  4 * ((sizeof_nlmsghdr + size + 3) / 4) <= MAX_AUDIT_MESSAGE_LENGTH ->
  data_covers data size ->
  tx_script w = ev :: s ->
  match ev with
  | TxFail e => e <> EINTR
  | TxAccept n => n < NLMSG_SPACE size
  end ->
  result (audit_send fd type data size w) = Some (- EPROTO)
  /\ trace_of (audit_send fd type data size w)
     = trace w ++ [Sendto fd (request type data size (s16 (sequence w + 1)))
                     (NLMSG_SPACE size)].
Proof.
  intros Hfd H0 HB HD Htx Hev.
  destruct (within_bounds_space size H0 HB) as (HE & HS & _).
  apply Z.ltb_ge in HS.
  pose proof MAX_AUDIT_MESSAGE_LENGTH_int as HM.
  assert (HR : 16 <= NLMSG_SPACE size).
  { rewrite HE. unfold sizeof_nlmsghdr.
    pose proof (Z.div_mod (16 + size + 3) 4).
    pose proof (Z.mod_pos_bound (16 + size + 3) 4). lia. }
  set (req := request type data size (s16 (sequence w + 1))).
  set (w1 := set_sequence (s16 (sequence w + 1)) w).
  assert (Htx1 : tx_script w1 = ev :: s) by exact Htx.
  assert (E : exists w2,
             audit_send fd type data size w = out (- EPROTO) w2
             /\ trace w2 = trace w ++ [Sendto fd req (NLMSG_SPACE size)]).
  { destruct ev as [e | n].
    - eexists. split.
      + rewrite (audit_send_after fd type data size w _ _ Hfd H0 HB HD
                   (sendto_loop_fails _ fd req w1 e s Htx1 Hev)).
        unfold after_sendto. cbn [req request nlh nlmsg_len].
        replace (u32 (-1) =? NLMSG_SPACE size) with false
          by (symmetry; apply Z.eqb_neq; change (u32 (-1)) with 4294967295; lia).
        reflexivity.
      + reflexivity.
    - cbv beta iota in Hev. eexists. split.
      + rewrite (audit_send_after fd type data size w _ _ Hfd H0 HB HD
                   (sendto_loop_short _ fd req w1 n s Htx1)).
        unfold after_sendto. cbn [req request nlh nlmsg_len].
        rewrite u32_small by lia.
        replace (Z.max 0 (Z.min n (NLMSG_SPACE size)) =? NLMSG_SPACE size) with false
          by (symmetry; apply Z.eqb_neq; lia).
        reflexivity.
      + reflexivity. }
  destruct E as (w2 & E & T). rewrite E, out_spec. cbn [result trace_of].
  split; [reflexivity |].
  destruct (sequence w2 <? 0); exact T.
Qed.

End SenderClaims.

(** ** A send answered by a pending reply *)

Section Exchange.
Context `{libaudit_h}.

Lemma set_internal_fields_ok m rep len :
  NLMSG_OK (nlh m) len = true ->
  set_internal_fields (store_msg m rep) len =
    (0, decode (store_msg m rep) (view_of_type (nlmsg_type (nlh m)))).
Proof.
  intros Hok. unfold set_internal_fields, view_of_type.
  cbn [decode store_msg rep_msg rep_type]. rewrite Hok. cbn [negb].
  repeat match goal with |- context [if ?c then _ else _] => destruct c end;
    reflexivity.
Qed.

Lemma peek_flag_set :
  (Z.land (recv_flags GET_REPLY_BLOCKING MSG_PEEK) MSG_PEEK =? 0) = false.
Proof. reflexivity. Qed.

Lemma peek_flag_clear :
  (Z.land (recv_flags GET_REPLY_BLOCKING 0) MSG_PEEK =? 0) = true.
Proof. reflexivity. Qed.

Lemma get_ack_pending fd seq w d q :
  0 <= fd -> rx_faults w = [] -> rxq w = d :: q ->
  dg_addrlen d = sizeof_sockaddr_nl -> dg_nl_pid d = 0 ->
  NLMSG_OK (nlh (dg_msg d)) (recv_len d) = true ->
  get_ack fd seq w = Done (ack_code d) (acked fd d q w).
Proof.
  intros Hfd F Q L P Hok. unfold get_ack.
  pose proof Hfd as Hfd'. apply Z.ltb_ge in Hfd'. rewrite Hfd'.
  unfold bind at 1, get_world. unfold bind at 1.
  rewrite (audit_get_reply_delivers fd _ _ _ w d q Hfd) by (rewrite ?F; auto).
  apply Z.eqb_eq in L, P. rewrite L, P. cbn [negb].
  rewrite set_internal_fields_ok by exact Hok.
  cbn [Z.ltb Z.compare decode rep_type store_msg rep_msg].
  unfold ack_code, acked. cbv zeta.
  destruct (nlmsg_type (nlh (dg_msg d)) =? NLMSG_ERROR) eqn:T; [| reflexivity].
  set (w1 := delivered fd (recv_flags GET_REPLY_BLOCKING MSG_PEEK) d q w).
  assert (Q1 : rxq w1 = d :: q).
  { subst w1. unfold delivered. cbn [rxq set_rxq]. rewrite peek_flag_set. reflexivity. }
  assert (F1 : hd None (rx_faults w1) = None).
  { subst w1. unfold delivered. cbn. rewrite F. reflexivity. }
  unfold bind at 1.
  rewrite (audit_get_reply_delivers fd _ _ _ w1 d q Hfd F1 Q1).
  rewrite L, P. cbn [negb].
  rewrite set_internal_fields_ok by exact Hok.
  unfold bind, read_error, view_of_type.
  cbn [decode rep_view rep_msg store_msg]. rewrite T.
  unfold ret. destruct (nlmsgerr_error (dg_msg d) =? 0); reflexivity.
Qed.

(** A send that is transmitted in full and finds a well-formed reply from
    the kernel on the socket. *)
Lemma audit_send_exchange fd type data size w d q :
  0 <= fd -> 0 <= size ->
  4 * ((sizeof_nlmsghdr + size + 3) / 4) <= MAX_AUDIT_MESSAGE_LENGTH ->
  data_covers data size ->
  tx_script w = [] -> rx_faults w = [] -> rxq w = d :: q ->
  dg_addrlen d = sizeof_sockaddr_nl -> dg_nl_pid d = 0 ->
  NLMSG_OK (nlh (dg_msg d)) (recv_len d) = true ->
  let seq := s16 (sequence w + 1) in
  let req := request type data size seq in
  audit_send fd type data size w =
    out (if ack_code d =? 0 then seq else ack_code d)
        (acked fd d q
           (set_tx_script []
              (log_syscall (Sendto fd req (NLMSG_SPACE size))
                 (set_sequence seq w)))).
Proof.
  intros Hfd H0 HB HD Htx F Q L P Hok seq req.
  pose proof (NLMSG_SPACE_range size) as HR.
  assert (Hloop := sendto_loop_full (length (tx_script w)) fd req
                     (set_sequence seq w) Htx (proj1 HR)).
  rewrite (audit_send_after fd type data size w _ _ Hfd H0 HB HD Hloop).
  unfold after_sendto. cbn [req request nlh nlmsg_len].
  rewrite u32_small, Z.eqb_refl by exact HR. cbn [negb].
  replace (NLMSG_SPACE size <? 0) with false by (symmetry; apply Z.ltb_ge; lia).
  unfold bind at 1, get_world. unfold bind at 1.
  rewrite (get_ack_pending fd _ _ d q Hfd) by (assumption || reflexivity).
  unfold bind, get_world.
  replace (sequence (acked fd d q _)) with seq; [reflexivity |].
  unfold acked. cbv zeta. destruct (_ =? NLMSG_ERROR); reflexivity.
Qed.

End Exchange.

(** ** Claims about the ack wait and the sequence counter *)

Section ExchangeClaims.
Context `{libaudit_h}.

Lemma s32_small (x : Z) : -2147483648 <= x < 2147483648 -> s32 x = x.
Proof. intros. unfold s32. rewrite Z.mod_small; lia. Qed.

Lemma nlmsgerr_error_range (m : audit_message) :
  -2147483648 <= nlmsgerr_error m < 2147483648.
Proof.
  unfold nlmsgerr_error, s32.
  pose proof (Z.mod_pos_bound (read_u32 (data m) + 2147483648) 4294967296). lia.
Qed.

(** C1, what the code does.  A send transmitted in full peeks at the
    pending reply.  A reply of the error type is taken off the queue: with
    embedded code 0 the send returns the sequence number it issued, with an
    embedded code [e <> 0] it returns [- e], which is positive for the
    negative codes the kernel sends.  A reply of any other type stays on
    the queue and the send returns the sequence number. *)
Theorem audit_send_ack_wait fd type data size w d q :
  0 <= fd -> 0 <= size ->
  4 * ((sizeof_nlmsghdr + size + 3) / 4) <= MAX_AUDIT_MESSAGE_LENGTH ->
  data_covers data size ->
  tx_script w = [] -> rx_faults w = [] -> rxq w = d :: q ->
  dg_addrlen d = sizeof_sockaddr_nl -> dg_nl_pid d = 0 ->
  NLMSG_OK (nlh (dg_msg d)) (recv_len d) = true ->
  -2147483648 < nlmsgerr_error (dg_msg d) ->
  result (audit_send fd type data size w)
    = Some (if nlmsg_type (nlh (dg_msg d)) =? NLMSG_ERROR
            then if nlmsgerr_error (dg_msg d) =? 0
                 then s16 (sequence w + 1)
                 else - nlmsgerr_error (dg_msg d)
            else s16 (sequence w + 1))
  /\ option_map rxq (final (audit_send fd type data size w))
    = Some (if nlmsg_type (nlh (dg_msg d)) =? NLMSG_ERROR then q else d :: q).
Proof.
  intros Hfd H0 HB HD Htx F Q L P Hok He.
  rewrite (audit_send_exchange fd type data size w d q) by assumption.
  cbv zeta. rewrite out_spec. cbn [result final option_map].
  pose proof (nlmsgerr_error_range (dg_msg d)) as Hr.
  split.
  - f_equal. unfold ack_code.
    destruct (nlmsg_type (nlh (dg_msg d)) =? NLMSG_ERROR); [| reflexivity].
    destruct (Z.eqb_spec (nlmsgerr_error (dg_msg d)) 0) as [E | E]; [reflexivity |].
    rewrite s32_small by lia.
    destruct (Z.eqb_spec (- nlmsgerr_error (dg_msg d)) 0); [lia | reflexivity].
  - f_equal.
    match goal with |- rxq (if ?c then _ else _) = _ => destruct c end;
      cbn [rxq set_sequence]; unfold acked; cbv zeta;
      (destruct (nlmsg_type (nlh (dg_msg d)) =? NLMSG_ERROR);
       unfold delivered; cbn [rxq set_rxq];
       rewrite ?peek_flag_set, ?peek_flag_clear; reflexivity).
Qed.

(** C3, what the code does.  A send that is transmitted and acknowledged
    with code 0 returns the counter incremented in 16-bit arithmetic, and
    puts that value, converted to 32 bits unsigned, in the frame; only then
    is a negative counter put back to 0.  From 32767 the send therefore
    issues -32768, not 0. *)
Theorem audit_send_sequence_number fd type data size w d q :
  0 <= fd -> 0 <= size ->
  4 * ((sizeof_nlmsghdr + size + 3) / 4) <= MAX_AUDIT_MESSAGE_LENGTH ->
  data_covers data size ->
  tx_script w = [] -> rx_faults w = [] -> rxq w = d :: q ->
  dg_addrlen d = sizeof_sockaddr_nl -> dg_nl_pid d = 0 ->
  NLMSG_OK (nlh (dg_msg d)) (recv_len d) = true ->
  nlmsg_type (nlh (dg_msg d)) = NLMSG_ERROR ->
  nlmsgerr_error (dg_msg d) = 0 ->
  let seq := s16 (sequence w + 1) in
  result (audit_send fd type data size w) = Some seq
  /\ option_map sequence (final (audit_send fd type data size w))
     = Some (if seq <? 0 then 0 else seq)
  /\ exists req rest,
       trace_of (audit_send fd type data size w)
         = trace w ++ Sendto fd req (nlmsg_len (nlh req)) :: rest
       /\ nlmsg_seq (nlh req) = u32 seq.
Proof.
  intros Hfd H0 HB HD Htx F Q L P Hok T E seq.
  split; [| split].
  - rewrite (audit_send_exchange fd type data size w d q) by assumption.
    cbv zeta. rewrite out_spec. cbn [result].
    unfold ack_code. rewrite T, E. reflexivity.
  - rewrite (audit_send_exchange fd type data size w d q) by assumption.
    cbv zeta. rewrite out_spec. cbn [final option_map].
    replace (sequence (acked fd d q _)) with seq
      by (unfold acked; cbv zeta; destruct (_ =? NLMSG_ERROR); reflexivity).
    destruct (seq <? 0); [reflexivity |].
    f_equal. unfold acked. cbv zeta. destruct (_ =? NLMSG_ERROR); reflexivity.
  - destruct (audit_send_first_call fd type data size w Hfd H0 HB HD) as [rest R].
    exists (request type data size seq), rest. split; [exact R | reflexivity].
Qed.

End ExchangeClaims.

(** ** The claims at concrete inputs *)

Ltac concrete :=
  first [ reflexivity | exact I
        | vm_compute; repeat split;
          first [ reflexivity | discriminate | intro; discriminate ] ].

(** A send of 9000 bytes, and a send on descriptor -1, change nothing. *)
Lemma audit_send_rejects_arguments_at_9000 :
  audit_send (H := sample_libaudit_h) 3 AUDIT_SET None 9000 (quiet_world 5 [])
    = Done (- EINVAL) (quiet_world 5 [])
  /\ audit_send (H := sample_libaudit_h) (-1) AUDIT_SET None 0 (quiet_world 5 [])
    = Done (- EBADF) (quiet_world 5 []).
Proof.
  split.
  - apply (audit_send_rejects_arguments (H := sample_libaudit_h)
             3 AUDIT_SET None 9000 (quiet_world 5 [])).
    right. concrete.
  - apply (audit_send_rejects_arguments (H := sample_libaudit_h)
             (-1) AUDIT_SET None 0 (quiet_world 5 [])).
    left. concrete.
Defined.

(** A registration on descriptor -1, and a payload of 9000 bytes on
    descriptor 3, are turned away in the state they found. *)
Lemma audit_send_invalid_argument_witness :
  audit_send (H := sample_libaudit_h) (-1) AUDIT_SET None 32 (quiet_world 5 [])
    = Done (- EBADF) (quiet_world 5 [])
  /\ audit_send (H := sample_libaudit_h) 3 AUDIT_SET None 9000 (quiet_world 5 [])
    = Done (- EINVAL) (quiet_world 5 []).
Proof.
  split.
  - destruct (audit_send_invalid_argument (H := sample_libaudit_h)
                (-1) AUDIT_SET None 32 (quiet_world 5 [])) as [A _].
    apply A. lia.
  - destruct (audit_send_invalid_argument (H := sample_libaudit_h)
                3 AUDIT_SET None 9000 (quiet_world 5 [])) as [_ B].
    apply B; [lia | lia | lia | concrete].
Defined.

Lemma audit_set_logsplit_rejects_flag_witness :
  audit_set_logsplit (H := sample_libaudit_h) 3 7 WAIT_YES (quiet_world 5 [])
    = Done (- EINVAL) (quiet_world 5 []).
Proof.
  apply (audit_set_logsplit_rejects_flag (H := sample_libaudit_h)
           3 7 WAIT_YES (quiet_world 5 []));
    concrete.
Defined.

(** The registration request of [audit_set_pid]: 32 bytes of status. *)
Lemma audit_send_builds_frame_witness :
  exists req rest,
    trace_of (audit_send (H := sample_libaudit_h) 3 AUDIT_SET
                (Some (audit_status_bytes 1234 AUDIT_STATUS_PID)) 32
                (quiet_world 0 [ack_datagram 0 1]))
      = trace (quiet_world 0 [ack_datagram 0 1])
        ++ Sendto 3 req (nlmsg_len (nlh req)) :: rest
    /\ nlmsg_len (nlh req) = 4 * ((sizeof_nlmsghdr + 32 + 3) / 4)
    /\ nlmsg_type (nlh req) = AUDIT_SET
    /\ nlmsg_flags (nlh req) = Z.lor NLM_F_REQUEST NLM_F_ACK.
Proof.
  apply (audit_send_builds_frame (H := sample_libaudit_h) 3 AUDIT_SET
           (Some (audit_status_bytes 1234 AUDIT_STATUS_PID)) 32
           (quiet_world 0 [ack_datagram 0 1]));
    concrete.
Defined.

Lemma audit_send_null_data_witness :
  exists req rest,
    trace_of (audit_send (H := sample_libaudit_h) 3 AUDIT_SET None 5
                (quiet_world 0 [ack_datagram 0 1]))
      = trace (quiet_world 0 [ack_datagram 0 1])
        ++ Sendto 3 req (nlmsg_len (nlh req)) :: rest
    /\ nlmsg_len (nlh req) = 4 * ((sizeof_nlmsghdr + 5 + 3) / 4)
    /\ wire_payload req =
         repeat x00 (Z.to_nat (4 * ((sizeof_nlmsghdr + 5 + 3) / 4) - sizeof_nlmsghdr))
    /\ (Z.to_nat 5 <= length (wire_payload req))%nat.
Proof.
  apply (audit_send_null_data (H := sample_libaudit_h) 3 AUDIT_SET 5
           (quiet_world 0 [ack_datagram 0 1]));
    concrete.
Defined.

(** C2 at the failing input: [sendto] fails with [ECONNREFUSED] and the
    send returns [-EPROTO], not [-ECONNREFUSED]. *)
Lemma audit_send_sendto_fails_witness :
  result (audit_send (H := sample_libaudit_h) 3 AUDIT_SET None 0 refusing_world)
    = Some (- EPROTO).
Proof.
  apply (audit_send_sendto_fails (H := sample_libaudit_h) 3 AUDIT_SET None 0
           refusing_world (TxFail ECONNREFUSED) []);
    concrete.
Defined.

(** C1 at the failing input: the kernel refuses the request with code -13
    and the send returns 13. *)
Lemma audit_send_ack_wait_witness :
  result (audit_send (H := sample_libaudit_h) 3 AUDIT_SET None 0
            (quiet_world 0 [ack_datagram (-13) 1]))
    = Some 13.
Proof.
  apply (audit_send_ack_wait (H := sample_libaudit_h) 3 AUDIT_SET None 0
           (quiet_world 0 [ack_datagram (-13) 1]) (ack_datagram (-13) 1) []);
    concrete.
Defined.

(** C3 at the failing input: from a counter of 32767 the send returns
    -32768, and the counter is 0 afterwards. *)
Lemma audit_send_sequence_number_witness :
  result (audit_send (H := sample_libaudit_h) 3 AUDIT_SET None 0
            (quiet_world 32767 [ack_datagram 0 1]))
    = Some (-32768)
  /\ option_map sequence
       (final (audit_send (H := sample_libaudit_h) 3 AUDIT_SET None 0
                 (quiet_world 32767 [ack_datagram 0 1])))
    = Some 0
  /\ exists req rest,
       trace_of (audit_send (H := sample_libaudit_h) 3 AUDIT_SET None 0
                   (quiet_world 32767 [ack_datagram 0 1]))
         = trace (quiet_world 32767 [ack_datagram 0 1])
           ++ Sendto 3 req (nlmsg_len (nlh req)) :: rest
       /\ nlmsg_seq (nlh req) = 4294934528.
Proof.
  apply (audit_send_sequence_number (H := sample_libaudit_h)
           3 AUDIT_SET None 0
           (quiet_world 32767 [ack_datagram 0 1]) (ack_datagram 0 1) []);
    concrete.
Defined.

(** Why the size test is stated below the wrap-around.  [audit_send] is
    static and both its callers pass the size of a status structure; were
    it handed a size of 4294967280, the framed size would wrap around to 0
    and pass the size test, and the send would take sequence number 1 and
    make three socket calls, the first a [sendto] of length 0. *)
Example audit_send_size_wraps :
  NLMSG_SPACE 4294967280 = 0
  /\ result (audit_send (H := sample_libaudit_h) 3 AUDIT_SET None 4294967280
               (quiet_world 0 [ack_datagram 0 1])) = Some 1
  /\ option_map sequence
       (final (audit_send (H := sample_libaudit_h) 3 AUDIT_SET None 4294967280
                 (quiet_world 0 [ack_datagram 0 1]))) = Some 1
  /\ trace_of (audit_send (H := sample_libaudit_h) 3 AUDIT_SET None 4294967280
                 (quiet_world 0 [ack_datagram 0 1]))
     = [Sendto 3 (request (H := sample_libaudit_h) AUDIT_SET None 4294967280 1) 0;
        Recvfrom 3 MSG_PEEK; Recvfrom 3 0].
Proof. repeat split; vm_compute; reflexivity. Qed.

(** The same inputs, run. *)

Example audit_send_two_calls :
  result (audit_send (H := sample_libaudit_h) 3 AUDIT_SET None 0
            (quiet_world 0 [ack_datagram 0 1])) = Some 1
  /\ result (audit_send (H := sample_libaudit_h) 3 AUDIT_SET None 0
               (quiet_world 1 [ack_datagram 0 2])) = Some 2.
Proof. split; reflexivity. Qed.

Example audit_send_wire_sequence_at_rollover :
  exists req len rest,
    trace_of (audit_send (H := sample_libaudit_h) 3 AUDIT_SET None 0
                (quiet_world 32767 [ack_datagram 0 1]))
      = Sendto 3 req len :: rest
    /\ nlmsg_seq (nlh req) = 4294934528.
Proof. do 3 eexists. split; reflexivity. Qed.

(** With the kernel's answer -13 to the registration, [audit_set_pid]
    returns 0. *)
Example audit_set_pid_kernel_refusal :
  result (audit_set_pid (H := sample_libaudit_h) 3 1234 WAIT_YES
            (quiet_world 0 [ack_datagram (-13) 1])) = Some 0.
Proof. reflexivity. Qed.

Example audit_set_pid_kernel_refusal_positive_code :
  result (audit_set_pid (H := sample_libaudit_h) 3 1234 WAIT_YES
            (quiet_world 0 [ack_datagram 13 1])) = Some (-13).
Proof. reflexivity. Qed.

(** * Further properties *)

(** ** The reply decoder *)

Section Decoder.
Context `{libaudit_h}.

Lemma view_of_type_not_null (t : Z) : view_of_type t <> ViewNull.
Proof.
  unfold view_of_type.
  repeat match goal with |- context [if ?c then _ else _] => destruct c end;
    discriminate.
Qed.

Lemma set_internal_fields_codes rep len :
  fst (set_internal_fields rep len) = 0
  \/ fst (set_internal_fields rep len) = - EFBIG
  \/ fst (set_internal_fields rep len) = - EBADE.
Proof.
  unfold set_internal_fields. cbn [decode rep_msg rep_type].
  destruct (NLMSG_OK (nlh (rep_msg rep)) len); cbn [negb].
  - repeat match goal with |- context [if ?c then _ else _] => destruct c end; auto.
  - destruct (len =? sizeof_audit_message); auto.
Qed.

(** X1.  [set_internal_fields] returns 0 exactly when the message passes
    [NLMSG_OK], and otherwise [-EFBIG] or [-EBADE]; the union is null
    exactly when the result is not 0.  In both cases the message buffer is
    as it was, and the type, length and header pointer of the reply are
    those of the message. *)
Theorem set_internal_fields_verdict rep len :
  let r := set_internal_fields rep len in
  (fst r = 0 <-> NLMSG_OK (nlh (rep_msg rep)) len = true)
  /\ (rep_view (snd r) = ViewNull <-> fst r <> 0)
  /\ (fst r = 0 \/ fst r = - EFBIG \/ fst r = - EBADE)
  /\ rep_msg (snd r) = rep_msg rep
  /\ rep_type (snd r) = nlmsg_type (nlh (rep_msg rep))
  /\ rep_len (snd r) = s32 (nlmsg_len (nlh (rep_msg rep)))
  /\ rep_nlh (snd r) = true.
Proof.
  cbv zeta. unfold set_internal_fields. cbn [decode rep_msg rep_type].
  destruct (NLMSG_OK (nlh (rep_msg rep)) len) eqn:Hok; cbn [negb].
  - set (t := nlmsg_type (nlh (rep_msg rep))).
    assert (V : exists v, v <> ViewNull /\
              (if t =? NLMSG_ERROR then (0, decode (decode rep ViewNull) ViewError)
               else if t =? AUDIT_GET then (0, decode (decode rep ViewNull) ViewStatus)
               else if t =? AUDIT_LIST_RULES
                    then (0, decode (decode rep ViewNull) ViewRuleData)
               else if t =? AUDIT_SIGNAL_INFO
                    then (0, decode (decode rep ViewNull) ViewSignalInfo)
               else (0, decode (decode rep ViewNull) ViewMessage))
              = (0, decode (decode rep ViewNull) v)).
    { repeat match goal with |- context [if ?c then _ else _] => destruct c end;
        eexists; (split; [| reflexivity]); discriminate. }
    destruct V as (v & Hv & ->). cbn.
    repeat split; auto; try (intros; congruence).
  - assert (C : (if len =? sizeof_audit_message then - EFBIG else - EBADE) <> 0)
      by (destruct (len =? sizeof_audit_message); discriminate).
    cbn. repeat split; auto; try (intros; congruence).
    destruct (len =? sizeof_audit_message); auto.
Qed.

(** The decoder looks at the message buffer only. *)
Lemma set_internal_fields_msg rep rep' len :
  rep_msg rep = rep_msg rep' ->
  set_internal_fields rep len = set_internal_fields rep' len.
Proof.
  intros E. unfold set_internal_fields, decode. cbn [rep_msg rep_type].
  rewrite E. reflexivity.
Qed.

End Decoder.

Lemma set_internal_fields_verdict_witness :
  fst (set_internal_fields (H := sample_libaudit_h) stale_reply 36) = 0.
Proof.
  apply (set_internal_fields_verdict (H := sample_libaudit_h) stale_reply 36).
  reflexivity.
Defined.

(** ** The receiver, in every environment *)

Section ReceiverFurther.
Context `{libaudit_h}.

Lemma recvfrom_blocks fd rep flags p l w :
  hd None (rx_faults w) = None -> rxq w = [] ->
  (Z.land flags MSG_DONTWAIT =? 0) = true ->
  recvfrom fd rep flags p l w =
    Blocked (set_rx_faults (tl (rx_faults w)) (log_syscall (Recvfrom fd flags) w)).
Proof.
  intros E Q F. unfold recvfrom, bind, get_world, modify, ret, block.
  rewrite E, Q, F. reflexivity.
Qed.

(** The four ways one [recvfrom] can go. *)
Lemma recvfrom_cases fd rep flags p l w :
  (exists e, hd None (rx_faults w) = Some e
     /\ recvfrom fd rep flags p l w =
        Done {| rr_len := -1; rr_rep := rep; rr_nl_pid := p; rr_nladdrlen := l |}
          (set_errno e (set_rx_faults (tl (rx_faults w))
                          (log_syscall (Recvfrom fd flags) w))))
  \/ (exists d q, hd None (rx_faults w) = None /\ rxq w = d :: q
     /\ recvfrom fd rep flags p l w =
        Done {| rr_len := recv_len d; rr_rep := store_msg (dg_msg d) rep;
                rr_nl_pid := dg_nl_pid d; rr_nladdrlen := dg_addrlen d |}
          (delivered fd flags d q w))
  \/ (hd None (rx_faults w) = None /\ rxq w = []
     /\ (Z.land flags MSG_DONTWAIT =? 0) = false
     /\ recvfrom fd rep flags p l w =
        Done {| rr_len := -1; rr_rep := rep; rr_nl_pid := p; rr_nladdrlen := l |}
          (set_errno EAGAIN (set_rx_faults (tl (rx_faults w))
                               (log_syscall (Recvfrom fd flags) w))))
  \/ (hd None (rx_faults w) = None /\ rxq w = []
     /\ (Z.land flags MSG_DONTWAIT =? 0) = true
     /\ recvfrom fd rep flags p l w =
        Blocked (set_rx_faults (tl (rx_faults w))
                   (log_syscall (Recvfrom fd flags) w))).
Proof.
  destruct (hd None (rx_faults w)) as [e |] eqn:E.
  - left. exists e. split; [reflexivity |]. now apply recvfrom_fails.
  - destruct (rxq w) as [| d q] eqn:Q.
    + destruct (Z.land flags MSG_DONTWAIT =? 0) eqn:F.
      * right. right. right. repeat split; auto. now apply recvfrom_blocks.
      * right. right. left. repeat split; auto. now apply recvfrom_would_block.
    + right. left. exists d, q. repeat split; auto. now apply recvfrom_delivers.
Qed.

Lemma recv_frame_refl fd flags w : recv_frame fd flags w w.
Proof.
  unfold recv_frame. repeat split; auto. exists 0%nat. cbn. now rewrite app_nil_r.
Qed.

Lemma recv_frame_fault fd flags w e :
  recv_frame fd flags w
    (set_errno e (set_rx_faults (tl (rx_faults w))
                    (log_syscall (Recvfrom fd flags) w))).
Proof. unfold recv_frame. cbn. repeat split; auto. exists 1%nat. reflexivity. Qed.

Lemma recv_frame_after_fault fd flags w e w' :
  recv_frame fd flags
    (set_errno e (set_rx_faults (tl (rx_faults w))
                    (log_syscall (Recvfrom fd flags) w))) w' ->
  recv_frame fd flags w w'.
Proof.
  unfold recv_frame. cbn. intros (I1 & I2 & I3 & (n & I4) & I5).
  repeat split; auto. exists (S n). rewrite I4, <- app_assoc. reflexivity.
Qed.

(** What the receive loop leaves alone, whatever the environment does. *)
Lemma get_reply_loop_frame fuel fd rep blk flags p l w :
  recv_frame fd flags w (end_world (get_reply_loop fuel fd rep blk flags p l w)).
Proof.
  revert rep p l w. induction fuel as [| fuel IH]; intros rep p l w.
  - apply recv_frame_refl.
  - cbn [get_reply_loop]. unfold bind at 1.
    destruct (recvfrom_cases fd rep flags p l w)
      as [(e & E & R) | [(d & q & E & Q & R) | [(E & Q & F & R) | (E & Q & F & R)]]];
      rewrite R.
    + unfold bind, get_world.
      cbn [rr_len rr_rep rr_nl_pid rr_nladdrlen errno set_errno Z.ltb Z.compare andb].
      destruct (e =? EINTR); cbn [negb].
      * apply (recv_frame_after_fault fd flags w e). apply IH.
      * destruct (reply_t_eqb blk GET_REPLY_NONBLOCKING && (e =? EAGAIN));
          apply recv_frame_fault.
    + unfold bind, get_world. cbn [rr_len]. rewrite recv_len_nonneg.
      cbn [andb]. unfold recv_frame, delivered. cbn. repeat split; auto.
      * exists 1%nat. reflexivity.
      * rewrite Q. destruct (Z.land flags MSG_PEEK =? 0); auto.
    + unfold bind, get_world.
      cbn [rr_len rr_rep rr_nl_pid rr_nladdrlen errno set_errno Z.ltb Z.compare andb].
      change (EAGAIN =? EINTR) with false. cbn [negb].
      destruct (reply_t_eqb blk GET_REPLY_NONBLOCKING && (EAGAIN =? EAGAIN));
        apply recv_frame_fault.
    + unfold recv_frame. cbn. repeat split; auto. exists 1%nat. reflexivity.
Qed.

Lemma peek_flag_kept blk peek :
  (Z.land (recv_flags blk peek) MSG_PEEK =? 0) = true -> Z.land peek MSG_PEEK = 0.
Proof.
  intros F. apply Z.eqb_eq in F.
  apply Z.bits_inj'. intros n Hn. rewrite Z.bits_0.
  assert (B := f_equal (fun z => Z.testbit z n) F). cbn beta in B.
  rewrite Z.bits_0 in B. unfold recv_flags in B.
  rewrite Z.land_spec, Z.lor_spec in B. rewrite Z.land_spec.
  destruct (Z.testbit peek n); [| reflexivity].
  rewrite orb_true_r in B. exact B.
Qed.

Lemma audit_get_reply_recv_frame fd rep blk peek w :
  recv_frame fd (recv_flags blk peek) w
    (end_world (audit_get_reply fd rep blk peek w)).
Proof.
  unfold audit_get_reply.
  destruct (fd <? 0); [apply recv_frame_refl |].
  unfold bind at 1, get_world. unfold bind.
  pose proof (get_reply_loop_frame (S (length (rx_faults w))) fd rep blk
                (recv_flags blk peek) 0 sizeof_sockaddr_nl w) as F.
  destruct (get_reply_loop _ fd rep blk _ 0 sizeof_sockaddr_nl w)
    as [x w1 | w1 | w1]; cbn [end_world] in F; [| exact F | exact F].
  destruct x as [rc | r]; [exact F |].
  destruct (negb (rr_nladdrlen r =? sizeof_sockaddr_nl)); [exact F |].
  destruct (negb (rr_nl_pid r =? 0)); exact F.
Qed.

(** X3.  Whatever the socket does and however the call ends,
    [audit_get_reply] leaves the sequence counter and the send side alone,
    makes no socket call other than [recvfrom] with the flags of the call,
    and takes at most one datagram off the queue, none at all when it
    peeks. *)
Theorem audit_get_reply_frame fd rep blk peek w :
  let w' := end_world (audit_get_reply fd rep blk peek w) in
  sequence w' = sequence w
  /\ tx_script w' = tx_script w
  /\ (exists n, trace w' = trace w ++ repeat (Recvfrom fd (recv_flags blk peek)) n)
  /\ (rxq w' = rxq w \/ rxq w' = tl (rxq w))
  /\ (Z.land peek MSG_PEEK <> 0 -> rxq w' = rxq w).
Proof.
  cbv zeta.
  destruct (audit_get_reply_recv_frame fd rep blk peek w) as (F1 & F2 & _ & F4 & F5).
  repeat split; auto.
  - destruct F5 as [F5 | [_ F5]]; auto.
  - intros P. destruct F5 as [F5 | [F5 _]]; auto.
    exfalso. apply P. exact (peek_flag_kept blk peek F5).
Qed.

Lemma audit_get_reply_fails fd rep blk peek w e :
  0 <= fd -> hd None (rx_faults w) = Some e -> e <> EINTR ->
  (blk = GET_REPLY_NONBLOCKING -> e <> EAGAIN) ->
  audit_get_reply fd rep blk peek w =
    Done (- e, rep)
      (set_errno e (set_rx_faults (tl (rx_faults w))
                      (log_syscall (Recvfrom fd (recv_flags blk peek)) w))).
Proof.
  intros Hfd E Hne Hag. unfold audit_get_reply.
  apply Z.ltb_ge in Hfd. rewrite Hfd.
  cbn [get_reply_loop]. unfold bind, get_world.
  rewrite (recvfrom_fails _ _ _ _ _ _ _ E).
  cbn [rr_len errno set_errno Z.ltb Z.compare andb].
  apply Z.eqb_neq in Hne. rewrite Hne. cbn [negb].
  destruct blk; cbn [reply_t_eqb andb]; [reflexivity |].
  specialize (Hag eq_refl). apply Z.eqb_neq in Hag. rewrite Hag. reflexivity.
Qed.

Lemma interrupts_rx_faults n fd flags w fs :
  rx_faults w = repeat (Some EINTR) n ++ fs ->
  rx_faults (interrupts n fd flags w) = fs.
Proof.
  intros E.
  exact (proj2 (get_reply_loop_interrupts n 0 fd zero_reply GET_REPLY_BLOCKING
                  flags 0 0 w fs E)).
Qed.

Lemma audit_get_reply_fails_after_interrupts fd rep blk peek w n e fs :
  0 <= fd ->
  rx_faults w = repeat (Some EINTR) n ++ Some e :: fs ->
  e <> EINTR -> (blk = GET_REPLY_NONBLOCKING -> e <> EAGAIN) ->
  exists w',
    audit_get_reply fd rep blk peek w = Done (- e, rep) w'
    /\ rxq w' = rxq w /\ rx_faults w' = fs /\ errno w' = e.
Proof.
  intros Hfd E Hne Hag.
  rewrite (audit_get_reply_interrupts n fd rep blk peek w _ Hfd E).
  pose proof (interrupts_rx_faults n fd (recv_flags blk peek) w _ E) as R.
  rewrite audit_get_reply_fails with (e := e); auto.
  - eexists. split; [reflexivity |]. cbn.
    rewrite interrupts_rxq, R. auto.
  - rewrite R. reflexivity.
Qed.

(** X4.  A [recvfrom] failure other than an interrupt ends the receive,
    after any number of interrupted attempts: the call returns the negated
    errno, hands the reply structure back untouched and leaves the queue as
    it was.  Only the non-blocking mode turns [EAGAIN] into 0; in blocking
    mode [EAGAIN] is returned as [-EAGAIN] like any other failure. *)
Theorem audit_get_reply_recv_error fd rep blk peek w n e fs :
  0 <= fd ->
  rx_faults w = repeat (Some EINTR) n ++ Some e :: fs ->
  e <> EINTR -> (blk = GET_REPLY_NONBLOCKING -> e <> EAGAIN) ->
  exists w',
    audit_get_reply fd rep blk peek w = Done (- e, rep) w'
    /\ rxq w' = rxq w /\ rx_faults w' = fs /\ errno w' = e.
Proof.
  intros Hfd E Hne Hag.
  rewrite (audit_get_reply_interrupts n fd rep blk peek w _ Hfd E).
  pose proof (interrupts_rx_faults n fd (recv_flags blk peek) w _ E) as R.
  rewrite audit_get_reply_fails with (e := e); auto.
  - eexists. split; [reflexivity |]. cbn.
    rewrite interrupts_rxq, R. auto.
  - rewrite R. reflexivity.
Qed.

(** X5.  A peek followed by a consuming receive sees the same datagram
    twice: both calls return the same code and leave the same reply, the
    peek keeps the datagram at the head of the queue and the second call
    takes it off, also when the datagram is one the receiver turns away. *)
Theorem audit_get_reply_peek_then_read fd rep blk w d q :
  0 <= fd -> rxq w = d :: q ->
  hd None (rx_faults w) = None -> hd None (tl (rx_faults w)) = None ->
  exists r w1 w2,
    audit_get_reply fd rep blk MSG_PEEK w = Done r w1
    /\ rxq w1 = d :: q
    /\ audit_get_reply fd (snd r) blk 0 w1 = Done r w2
    /\ rxq w2 = q.
Proof.
  intros Hfd Q F1 F2.
  rewrite (audit_get_reply_delivers fd rep blk MSG_PEEK w d q Hfd F1 Q).
  set (w1 := delivered fd (recv_flags blk MSG_PEEK) d q w).
  assert (Q1 : rxq w1 = d :: q) by (destruct blk; reflexivity).
  assert (F1' : hd None (rx_faults w1) = None) by exact F2.
  eexists. exists w1. eexists. split; [reflexivity |]. split; [exact Q1 |].
  rewrite (audit_get_reply_delivers fd _ blk 0 w1 d q Hfd F1' Q1).
  split.
  - f_equal.
    destruct (negb (dg_addrlen d =? sizeof_sockaddr_nl)); [reflexivity |].
    destruct (negb (dg_nl_pid d =? 0)); [reflexivity |].
    rewrite (set_internal_fields_msg
               (store_msg (dg_msg d)
                  (snd (set_internal_fields (store_msg (dg_msg d) rep) (recv_len d))))
               (store_msg (dg_msg d) rep)) by reflexivity.
    reflexivity.
  - destruct blk; reflexivity.
Qed.

Lemma get_reply_loop_returns fuel fd rep blk flags p l w :
  (length (rx_faults w) < fuel)%nat ->
  (Z.land flags MSG_DONTWAIT =? 0) = false \/ rxq w <> [] ->
  exists x w', get_reply_loop fuel fd rep blk flags p l w = Done x w'.
Proof.
  revert rep p l w. induction fuel as [| fuel IH]; intros rep p l w Hlt Hor; [lia |].
  cbn [get_reply_loop]. unfold bind at 1.
  destruct (recvfrom_cases fd rep flags p l w)
    as [(e & E & R) | [(d & q & E & Q & R) | [(E & Q & F & R) | (E & Q & F & R)]]];
    rewrite R.
  - unfold bind, get_world.
    cbn [rr_len rr_rep rr_nl_pid rr_nladdrlen errno set_errno Z.ltb Z.compare andb].
    destruct (e =? EINTR); cbn [negb].
    + apply IH.
      * cbn. destruct (rx_faults w); cbn in *; [discriminate | lia].
      * exact Hor.
    + destruct (reply_t_eqb blk GET_REPLY_NONBLOCKING && (e =? EAGAIN));
        unfold ret; eauto.
  - unfold bind, get_world. cbn [rr_len]. rewrite recv_len_nonneg.
    cbn [andb]. unfold ret. eauto.
  - unfold bind, get_world.
    cbn [rr_len rr_rep rr_nl_pid rr_nladdrlen errno set_errno Z.ltb Z.compare andb].
    change (EAGAIN =? EINTR) with false. cbn [negb].
    destruct (reply_t_eqb blk GET_REPLY_NONBLOCKING && (EAGAIN =? EAGAIN));
      unfold ret; eauto.
  - destruct Hor as [Hd | Hq]; [congruence | contradiction].
Qed.

Lemma audit_get_reply_done fd rep blk peek w :
  blk = GET_REPLY_NONBLOCKING \/ rxq w <> [] ->
  exists r w', audit_get_reply fd rep blk peek w = Done r w'.
Proof.
  intros Hor. unfold audit_get_reply.
  destruct (fd <? 0); [unfold ret; eauto |].
  unfold bind at 1, get_world. unfold bind.
  destruct (get_reply_loop_returns (S (length (rx_faults w))) fd rep blk
              (recv_flags blk peek) 0 sizeof_sockaddr_nl w) as (x & w' & E).
  - lia.
  - destruct Hor as [-> | Hq]; [left; apply dontwait_set | right; exact Hq].
  - rewrite E. destruct x as [rc | r]; [unfold ret; eauto |].
    destruct (negb (rr_nladdrlen r =? sizeof_sockaddr_nl)); [unfold ret; eauto |].
    destruct (negb (rr_nl_pid r =? 0)); unfold ret; eauto.
Qed.

(** X6.  [audit_get_reply] always returns when it is called in
    non-blocking mode, and in either mode when a datagram is pending,
    whatever failures and interrupts the socket produces. *)
Theorem audit_get_reply_returns fd rep blk peek w :
  blk = GET_REPLY_NONBLOCKING \/ rxq w <> [] ->
  exists r w', audit_get_reply fd rep blk peek w = Done r w'.
Proof.
  intros Hor. unfold audit_get_reply.
  destruct (fd <? 0); [unfold ret; eauto |].
  unfold bind at 1, get_world. unfold bind.
  destruct (get_reply_loop_returns (S (length (rx_faults w))) fd rep blk
              (recv_flags blk peek) 0 sizeof_sockaddr_nl w) as (x & w' & E).
  - lia.
  - destruct Hor as [-> | Hq]; [left; apply dontwait_set | right; exact Hq].
  - rewrite E. destruct x as [rc | r]; [unfold ret; eauto |].
    destruct (negb (rr_nladdrlen r =? sizeof_sockaddr_nl)); [unfold ret; eauto |].
    destruct (negb (rr_nl_pid r =? 0)); unfold ret; eauto.
Qed.

(** X7.  A blocking receive on a socket with nothing pending never
    returns: after any number of interrupted attempts it waits in
    [recvfrom], with the queue still empty. *)
Theorem audit_get_reply_blocks fd rep peek w n fs :
  0 <= fd -> Z.land peek MSG_DONTWAIT = 0 -> rxq w = [] ->
  rx_faults w = repeat (Some EINTR) n ++ fs -> hd None fs = None ->
  exists w',
    audit_get_reply fd rep GET_REPLY_BLOCKING peek w = Blocked w'
    /\ rxq w' = [].
Proof.
  intros Hfd Hp Q E Hfs.
  rewrite (audit_get_reply_interrupts n fd rep _ peek w _ Hfd E).
  pose proof (interrupts_rx_faults n fd (recv_flags GET_REPLY_BLOCKING peek) w _ E) as R.
  set (w0 := interrupts n fd (recv_flags GET_REPLY_BLOCKING peek) w) in *.
  assert (Q0 : rxq w0 = []) by (subst w0; rewrite interrupts_rxq; exact Q).
  unfold audit_get_reply. apply Z.ltb_ge in Hfd. rewrite Hfd.
  cbn [get_reply_loop]. unfold bind, get_world.
  rewrite recvfrom_blocks.
  - eexists. split; [reflexivity |]. cbn. exact Q0.
  - rewrite R. exact Hfs.
  - exact Q0.
  - unfold recv_flags. cbn [reply_t_eqb]. rewrite Z.lor_0_l, Hp. reflexivity.
Qed.

Lemma get_reply_loop_sign fuel fd rep blk flags p l w rc w' :
  positive_faults (rx_faults w) ->
  get_reply_loop fuel fd rep blk flags p l w = Done (inl rc) w' -> rc <= 0.
Proof.
  revert rep p l w. induction fuel as [| fuel IH]; intros rep p l w Hpos; [discriminate |].
  cbn [get_reply_loop]. unfold bind at 1.
  destruct (recvfrom_cases fd rep flags p l w)
    as [(e & E & R) | [(d & q & E & Q & R) | [(E & Q & F & R) | (E & Q & F & R)]]];
    rewrite R.
  - unfold bind, get_world.
    cbn [rr_len rr_rep rr_nl_pid rr_nladdrlen errno set_errno Z.ltb Z.compare andb].
    assert (He : 0 < e /\ positive_faults (tl (rx_faults w))).
    { destruct (rx_faults w) as [| f fs]; [discriminate |].
      cbn in E. subst f. inversion Hpos; subst. auto. }
    destruct (e =? EINTR); cbn [negb].
    + apply IH. cbn. apply He.
    + destruct (reply_t_eqb blk GET_REPLY_NONBLOCKING && (e =? EAGAIN));
        unfold ret; intros [= <- _]; lia.
  - unfold bind, get_world. cbn [rr_len]. rewrite recv_len_nonneg.
    cbn [andb]. unfold ret. discriminate.
  - unfold bind, get_world.
    cbn [rr_len rr_rep rr_nl_pid rr_nladdrlen errno set_errno Z.ltb Z.compare andb].
    change (EAGAIN =? EINTR) with false. cbn [negb].
    destruct (reply_t_eqb blk GET_REPLY_NONBLOCKING && (EAGAIN =? EAGAIN));
      unfold ret; intros [= <- _]; unfold EAGAIN; lia.
  - discriminate.
Qed.

(** X8.  With the errno of every failing [recvfrom] positive, the result
    of [audit_get_reply] is 0 or negative, never a positive number. *)
Theorem audit_get_reply_sign fd rep blk peek w rc rep' w' :
  positive_faults (rx_faults w) ->
  audit_get_reply fd rep blk peek w = Done (rc, rep') w' -> rc <= 0.
Proof.
  intros Hpos. unfold audit_get_reply.
  destruct (fd <? 0); [unfold ret; intros [= <- _ _]; unfold EBADF; lia |].
  unfold bind at 1, get_world. unfold bind.
  destruct (get_reply_loop _ fd rep blk _ 0 sizeof_sockaddr_nl w)
    as [x w1 | w1 | w1] eqn:L; try discriminate.
  destruct x as [rc0 | r].
  - unfold ret. intros [= <- _ _].
    exact (get_reply_loop_sign _ _ _ _ _ _ _ _ _ _ Hpos L).
  - destruct (negb (rr_nladdrlen r =? sizeof_sockaddr_nl));
      [unfold ret; intros [= <- _ _]; unfold EPROTO; lia |].
    destruct (negb (rr_nl_pid r =? 0));
      [unfold ret; intros [= <- _ _]; unfold EINVAL; lia |].
    unfold ret. intros E.
    pose proof (set_internal_fields_codes (rr_rep r) (rr_len r)) as C.
    assert (Ef : fst (set_internal_fields (rr_rep r) (rr_len r)) = rc)
      by (injection E as E1 _; rewrite E1; reflexivity).
    rewrite Ef in C. unfold EFBIG, EBADE in C. lia.
Qed.

End ReceiverFurther.

(** ** The sender, in every environment *)

Section SenderFurther.
Context `{libaudit_h}.

Lemma keeps_sequence_ret {A} (a : A) : keeps_sequence (ret a).
Proof. intros w. reflexivity. Qed.

Lemma keeps_sequence_bind {A B} (c : M A) (k : A -> M B) :
  keeps_sequence c -> (forall a, keeps_sequence (k a)) -> keeps_sequence (bind c k).
Proof.
  intros Hc Hk w. unfold bind. specialize (Hc w).
  destruct (c w) as [a w' | w' | w']; cbn [end_world] in *; auto.
  rewrite (Hk a w'). exact Hc.
Qed.

Lemma keeps_sequence_audit_get_reply fd rep blk peek :
  keeps_sequence (audit_get_reply fd rep blk peek).
Proof. intros w. apply (audit_get_reply_recv_frame fd rep blk peek w). Qed.

Lemma keeps_sequence_get_ack fd seq : keeps_sequence (get_ack fd seq).
Proof.
  unfold get_ack. destruct (fd <? 0); [apply keeps_sequence_ret |].
  intros w. unfold bind at 1, get_world. revert w.
  change (forall w, sequence (end_world
            ((' (rc, rep) <- audit_get_reply fd (auto_rep w) GET_REPLY_BLOCKING MSG_PEEK ;;
              if rc <? 0 then ret rc
              else if rep_type rep =? NLMSG_ERROR then
                ' (_, rep0) <- audit_get_reply fd rep GET_REPLY_BLOCKING 0 ;;
                e <- read_error rep0 ;;
                if negb (e =? 0) then ret (s32 (- e)) else ret 0
              else ret 0) w)) = sequence w).
  intros w. apply keeps_sequence_bind; [apply keeps_sequence_audit_get_reply |].
  intros [rc rep]. destruct (rc <? 0); [apply keeps_sequence_ret |].
  destruct (rep_type rep =? NLMSG_ERROR); [| apply keeps_sequence_ret].
  apply keeps_sequence_bind; [apply keeps_sequence_audit_get_reply |].
  intros [rc' rep']. apply keeps_sequence_bind.
  - unfold read_error. destruct (rep_view rep'); intros w0; reflexivity.
  - intros e. destruct (negb (e =? 0)); apply keeps_sequence_ret.
Qed.

Lemma keeps_sequence_sendto fd req len : keeps_sequence (sendto fd req len).
Proof.
  intros w. unfold sendto, bind, get_world, modify, ret.
  destruct (tx_script w) as [| [e | n] s]; reflexivity.
Qed.

Lemma keeps_sequence_sendto_loop fuel fd req : keeps_sequence (sendto_loop fuel fd req).
Proof.
  induction fuel as [| fuel IH]; cbn [sendto_loop]; [intros w; reflexivity |].
  apply keeps_sequence_bind; [apply keeps_sequence_sendto | intros rc].
  intros w. unfold bind, get_world.
  destruct ((rc <? 0) && (errno w =? EINTR)); [apply IH | reflexivity].
Qed.

Lemma s16_range (x : Z) : -32768 <= s16 x <= 32767.
Proof. unfold s16. pose proof (Z.mod_pos_bound (x + 32768) 65536). lia. Qed.

Lemma rolled_range (x : Z) : 0 <= rolled (s16 x) <= 32767.
Proof.
  unfold rolled. pose proof (s16_range x).
  destruct (Z.ltb_spec (s16 x) 0); lia.
Qed.

Lemma out_sequence w :
  sequence (if sequence w <? 0 then set_sequence 0 w else w) = rolled (sequence w).
Proof. unfold rolled. destruct (sequence w <? 0); reflexivity. Qed.

(** Where the counter stands when the code after the [sendto] loop is
    through: rolled back to 0 if negative once [out] is reached, untouched
    if the ack wait never gets there. *)
Lemma after_sendto_sequence fd req rc w :
  match after_sendto fd req rc w with
  | Done _ w' => sequence w' = rolled (sequence w)
  | Blocked w' => sequence w' = sequence w
  | Undefined w' => sequence w' = sequence w
  end.
Proof.
  unfold after_sendto.
  destruct (negb (u32 rc =? nlmsg_len (nlh req))).
  { rewrite out_spec. apply out_sequence. }
  destruct (rc <? 0).
  { unfold bind, get_world. rewrite out_spec. apply out_sequence. }
  unfold bind at 1, get_world. unfold bind at 1.
  pose proof (keeps_sequence_get_ack fd (sequence w) w) as K.
  destruct (get_ack fd (sequence w) w) as [a w1 | w1 | w1]; cbn [end_world] in K;
    [| exact K | exact K].
  unfold bind, get_world. rewrite out_spec, <- K.
  apply out_sequence.
Qed.

Lemma transmit_sequence fd req w :
  match transmit fd req w with
  | Done _ w' => sequence w' = rolled (s16 (sequence w + 1))
  | Blocked w' => sequence w' = s16 (sequence w + 1)
  | Undefined w' => sequence w' = s16 (sequence w + 1)
  end.
Proof.
  unfold transmit. unfold bind at 1, modify. unfold bind at 1, get_world.
  set (w1 := set_sequence (s16 (sequence w + 1)) w).
  set (req1 := set_nlmsg_seq (u32 (sequence w1)) req).
  cbv zeta. unfold bind.
  pose proof (keeps_sequence_sendto_loop (S (length (tx_script w1))) fd req1 w1) as K.
  destruct (sendto_loop (S (length (tx_script w1))) fd req1 w1) as [rc w2 | w2 | w2];
    cbn [end_world] in K; [| exact K | exact K].
  pose proof (after_sendto_sequence fd req1 rc w2) as A.
  destruct (after_sendto fd req1 rc w2); rewrite A, K; reflexivity.
Qed.

Lemma prepare_cases type data size w :
  (exists req, prepare type data size w = Done req w)
  \/ prepare type data size w = Undefined w.
Proof.
  unfold prepare. destruct data as [src |]; [| left; eexists; reflexivity].
  destruct (negb (size =? 0)); [| left; eexists; reflexivity].
  unfold bind, memcpy.
  destruct ((size <=? Z.of_nat (length src)) && _);
    [left; eexists; reflexivity | right; reflexivity].
Qed.

(** [audit_send] is the two argument tests followed by the preparation of
    the request and its transmission. *)
Lemma audit_send_tail fd type data size w :
  audit_send fd type data size w =
    if fd <? 0 then Done (- EBADF) w
    else if MAX_AUDIT_MESSAGE_LENGTH <? NLMSG_SPACE size then Done (- EINVAL) w
    else bind (prepare type data size) (transmit fd) w.
Proof.
  unfold audit_send.
  destruct (fd <? 0); [reflexivity |].
  destruct (MAX_AUDIT_MESSAGE_LENGTH <? NLMSG_SPACE size); reflexivity.
Qed.

(** X9.  A send that passes the two argument tests uses up exactly one
    sequence number in every environment, also when the transmission or
    the ack wait fails: when it returns, the counter is the old one
    incremented in 16-bit arithmetic, put back to 0 if that is negative;
    when it waits for ever in the ack wait, the counter is the incremented
    one. *)
Theorem audit_send_consumes_sequence fd type data size w :
  0 <= fd -> NLMSG_SPACE size <= MAX_AUDIT_MESSAGE_LENGTH ->
  match audit_send fd type data size w with
  | Done _ w' => sequence w' = rolled (s16 (sequence w + 1))
  | Blocked w' => sequence w' = s16 (sequence w + 1)
  | Undefined _ => True
  end.
Proof.
  intros Hfd Hs. rewrite audit_send_tail.
  apply Z.ltb_ge in Hfd, Hs. rewrite Hfd, Hs.
  unfold bind.
  destruct (prepare_cases type data size w) as [(req & ->) | ->]; [| exact I].
  pose proof (transmit_sequence fd req w) as T.
  destruct (transmit fd req w); auto.
Qed.

(** X10.  The counter stays within 0..32767 from one call to the next: if
    it is in that range before a send, it is in that range after every
    send that returns, whatever the arguments and whatever the socket
    does. *)
Theorem audit_send_counter_range fd type data size w rc w' :
  0 <= sequence w <= 32767 ->
  audit_send fd type data size w = Done rc w' ->
  0 <= sequence w' <= 32767.
Proof.
  intros Hr. rewrite audit_send_tail.
  destruct (fd <? 0); [intros [= _ <-]; exact Hr |].
  destruct (MAX_AUDIT_MESSAGE_LENGTH <? NLMSG_SPACE size); [intros [= _ <-]; exact Hr |].
  unfold bind.
  destruct (prepare_cases type data size w) as [(req & ->) | ->]; [| discriminate].
  pose proof (transmit_sequence fd req w) as T. intros E. rewrite E in T.
  rewrite T. apply rolled_range.
Qed.

End SenderFurther.

(** ** A send, from transmission to ack *)

Section Transmission.
Context `{libaudit_h}.

Lemma tx_interrupts_spec n fd req w s :
  tx_script w = repeat (TxFail EINTR) n ++ s ->
  tx_script (tx_interrupts n fd req w) = s
  /\ trace (tx_interrupts n fd req w)
     = trace w ++ repeat (Sendto fd req (nlmsg_len (nlh req))) n
  /\ sequence (tx_interrupts n fd req w) = sequence w
  /\ rxq (tx_interrupts n fd req w) = rxq w
  /\ rx_faults (tx_interrupts n fd req w) = rx_faults w
  /\ auto_rep (tx_interrupts n fd req w) = auto_rep w.
Proof.
  revert w. induction n as [| n IH]; intros w E.
  - cbn in *. rewrite app_nil_r. repeat split; auto.
  - cbn [tx_interrupts].
    destruct (IH (tx_interrupted fd req w)) as (I1 & I2 & I3 & I4 & I5 & I6).
    { cbn. rewrite E. reflexivity. }
    rewrite I1, I2, I3, I4, I5, I6. cbn. rewrite <- app_assoc. repeat split; auto.
Qed.

(** Interrupted [sendto] calls are repeated, each with the same request. *)
Lemma sendto_loop_interrupts n fuel fd req w s :
  tx_script w = repeat (TxFail EINTR) n ++ s ->
  sendto_loop (n + fuel) fd req w =
  sendto_loop fuel fd req (tx_interrupts n fd req w).
Proof.
  revert w. induction n as [| n IH]; intros w E; [reflexivity |].
  cbn [Nat.add tx_interrupts].
  rewrite (sendto_loop_interrupted _ fd req w (repeat (TxFail EINTR) n ++ s)) by exact E.
  replace (set_errno EINTR _) with (tx_interrupted fd req w)
    by (unfold tx_interrupted; rewrite E; reflexivity).
  apply IH. cbn. rewrite E. reflexivity.
Qed.

(** A send whose frame is accepted in full, after [n] interrupted
    attempts, goes on to the ack wait with the frame sent [n + 1] times. *)
Lemma audit_send_transmitted fd type data size w n :
  0 <= fd -> 0 <= size ->
  4 * ((sizeof_nlmsghdr + size + 3) / 4) <= MAX_AUDIT_MESSAGE_LENGTH ->
  data_covers data size ->
  tx_script w = repeat (TxFail EINTR) n ->
  let seq := s16 (sequence w + 1) in
  let req := request type data size seq in
  audit_send fd type data size w =
    await_ack fd
      (set_tx_script []
         (log_syscall (Sendto fd req (NLMSG_SPACE size))
            (tx_interrupts n fd req (set_sequence seq w)))).
Proof.
  intros Hfd H0 HB HD Htx seq req.
  pose proof (NLMSG_SPACE_range size) as HR.
  set (w1 := set_sequence seq w).
  assert (E1 : tx_script w1 = repeat (TxFail EINTR) n ++ []) by (rewrite app_nil_r; exact Htx).
  destruct (tx_interrupts_spec n fd req w1 [] E1) as (T1 & _).
  assert (Hloop : sendto_loop (S (length (tx_script w))) fd req w1 =
                  Done (NLMSG_SPACE size)
                    (set_tx_script []
                       (log_syscall (Sendto fd req (NLMSG_SPACE size))
                          (tx_interrupts n fd req w1)))).
  { rewrite Htx, repeat_length.
    replace (S n) with (n + 1)%nat by lia.
    rewrite (sendto_loop_interrupts n 1 fd req w1 [] E1).
    apply (sendto_loop_full 0 fd req _ T1). exact (proj1 HR). }
  rewrite (audit_send_after fd type data size w _ _ Hfd H0 HB HD Hloop).
  unfold after_sendto. cbn [req request nlh nlmsg_len].
  rewrite u32_small, Z.eqb_refl by exact HR. cbn [negb].
  replace (NLMSG_SPACE size <? 0) with false by (symmetry; apply Z.ltb_ge; lia).
  reflexivity.
Qed.

Lemma await_ack_pending fd w d q :
  0 <= fd -> rx_faults w = [] -> rxq w = d :: q ->
  dg_addrlen d = sizeof_sockaddr_nl -> dg_nl_pid d = 0 ->
  NLMSG_OK (nlh (dg_msg d)) (recv_len d) = true ->
  await_ack fd w =
    out (if ack_code d =? 0 then sequence w else ack_code d) (acked fd d q w).
Proof.
  intros Hfd F Q L P Hok. unfold await_ack.
  unfold bind at 1, get_world. unfold bind at 1.
  rewrite (get_ack_pending fd _ _ d q Hfd) by assumption.
  unfold bind, get_world.
  replace (sequence (acked fd d q w)) with (sequence w); [reflexivity |].
  unfold acked. cbv zeta. destruct (_ =? NLMSG_ERROR); reflexivity.
Qed.

Lemma acked_trace fd d q w :
  trace (acked fd d q w) =
    trace w ++ Recvfrom fd (recv_flags GET_REPLY_BLOCKING MSG_PEEK)
      :: (if nlmsg_type (nlh (dg_msg d)) =? NLMSG_ERROR
          then [Recvfrom fd (recv_flags GET_REPLY_BLOCKING 0)] else []).
Proof.
  unfold acked. cbv zeta. destruct (_ =? NLMSG_ERROR); cbn.
  - rewrite <- app_assoc. reflexivity.
  - reflexivity.
Qed.

(** X11.  When [sendto] is interrupted [n] times before the frame is
    accepted, the request is sent again each time with the same contents
    and the same sequence number: the trace shows [n + 1] identical
    [sendto] calls followed by the receives of the ack wait, and the send
    returns what it returns without interruptions. *)
Theorem audit_send_interrupted_sendto fd type data size w n d q :
  0 <= fd -> 0 <= size ->
  4 * ((sizeof_nlmsghdr + size + 3) / 4) <= MAX_AUDIT_MESSAGE_LENGTH ->
  data_covers data size ->
  tx_script w = repeat (TxFail EINTR) n ->
  rx_faults w = [] -> rxq w = d :: q ->
  dg_addrlen d = sizeof_sockaddr_nl -> dg_nl_pid d = 0 ->
  NLMSG_OK (nlh (dg_msg d)) (recv_len d) = true ->
  let seq := s16 (sequence w + 1) in
  let req := request type data size seq in
  result (audit_send fd type data size w)
    = Some (if ack_code d =? 0 then seq else ack_code d)
  /\ trace_of (audit_send fd type data size w)
    = trace w ++ repeat (Sendto fd req (NLMSG_SPACE size)) (S n)
      ++ Recvfrom fd (recv_flags GET_REPLY_BLOCKING MSG_PEEK)
         :: (if nlmsg_type (nlh (dg_msg d)) =? NLMSG_ERROR
             then [Recvfrom fd (recv_flags GET_REPLY_BLOCKING 0)] else []).
Proof.
  intros Hfd H0 HB HD Htx F Q L P Hok seq req.
  rewrite (audit_send_transmitted fd type data size w n) by assumption.
  cbv zeta. fold seq. fold req.
  set (w1 := set_sequence seq w).
  assert (E1 : tx_script w1 = repeat (TxFail EINTR) n ++ []) by (rewrite app_nil_r; exact Htx).
  destruct (tx_interrupts_spec n fd req w1 [] E1) as (T1 & T2 & T3 & T4 & T5 & T6).
  set (w2 := set_tx_script [] _).
  assert (F2 : rx_faults w2 = []) by (subst w2; cbn; rewrite T5; exact F).
  assert (Q2 : rxq w2 = d :: q) by (subst w2; cbn; rewrite T4; exact Q).
  rewrite (await_ack_pending fd w2 d q) by assumption.
  rewrite out_spec. cbn [result trace_of].
  split.
  - f_equal. subst w2. cbn. rewrite T3. reflexivity.
  - assert (T : trace (acked fd d q w2)
              = trace w ++ repeat (Sendto fd req (NLMSG_SPACE size)) (S n)
                ++ Recvfrom fd (recv_flags GET_REPLY_BLOCKING MSG_PEEK)
                   :: (if nlmsg_type (nlh (dg_msg d)) =? NLMSG_ERROR
                       then [Recvfrom fd (recv_flags GET_REPLY_BLOCKING 0)] else [])).
    { rewrite acked_trace. subst w2. cbn [trace set_tx_script log_syscall].
      rewrite T2. change (nlmsg_len (nlh req)) with (NLMSG_SPACE size).
      change (trace w1) with (trace w).
      rewrite <- !app_assoc. f_equal.
      change (repeat (Sendto fd req (NLMSG_SPACE size)) (S n))
        with (Sendto fd req (NLMSG_SPACE size)
              :: repeat (Sendto fd req (NLMSG_SPACE size)) n).
      rewrite repeat_cons, <- app_assoc. reflexivity. }
    match goal with |- trace (if ?c then _ else _) = _ => destruct c end; exact T.
Qed.

(** X12.  A send whose frame went out and that finds nothing pending on
    the socket never returns: it waits in the peek of the ack wait, with
    the sequence number used up and the frame sent. *)
Theorem audit_send_waits_for_ack fd type data size w :
  0 <= fd -> 0 <= size ->
  4 * ((sizeof_nlmsghdr + size + 3) / 4) <= MAX_AUDIT_MESSAGE_LENGTH ->
  data_covers data size ->
  tx_script w = [] -> rx_faults w = [] -> rxq w = [] ->
  let seq := s16 (sequence w + 1) in
  exists w',
    audit_send fd type data size w = Blocked w'
    /\ sequence w' = seq
    /\ trace w' = trace w
         ++ [Sendto fd (request type data size seq) (NLMSG_SPACE size);
             Recvfrom fd (recv_flags GET_REPLY_BLOCKING MSG_PEEK)].
Proof.
  intros Hfd H0 HB HD Htx F Q seq.
  rewrite (audit_send_transmitted fd type data size w 0) by assumption.
  cbv zeta. cbn [tx_interrupts]. fold seq.
  set (w2 := set_tx_script [] _).
  unfold await_ack. unfold bind at 1, get_world. unfold bind at 1.
  unfold get_ack. pose proof Hfd as Hfd'. apply Z.ltb_ge in Hfd'. rewrite Hfd'.
  unfold bind at 1, get_world. unfold bind at 1.
  assert (E' : audit_get_reply fd (auto_rep w2) GET_REPLY_BLOCKING MSG_PEEK w2 =
               Blocked (set_rx_faults (tl (rx_faults w2))
                          (log_syscall (Recvfrom fd (recv_flags GET_REPLY_BLOCKING MSG_PEEK)) w2))).
  { unfold audit_get_reply. rewrite Hfd'. cbn [get_reply_loop]. unfold bind, get_world.
    rewrite recvfrom_blocks; [reflexivity | subst w2; cbn; rewrite F; reflexivity
                             | exact Q | reflexivity]. }
  rewrite E'. eexists. split; [reflexivity |]. split; [reflexivity |].
  subst w2. cbn. rewrite <- app_assoc. reflexivity.
Qed.

(** X13.  A pending datagram that the receiver turns away (wrong sender
    address length, nonzero sender pid, or a frame that fails [NLMSG_OK])
    makes the send return the receiver's code, and stays at the head of the
    queue, because the ack wait only peeked at it: the socket is left
    exactly as a following send needs it to fail in the same way. *)
Theorem audit_send_rejected_reply_stays fd type data size w d q :
  0 <= fd -> 0 <= size ->
  4 * ((sizeof_nlmsghdr + size + 3) / 4) <= MAX_AUDIT_MESSAGE_LENGTH ->
  data_covers data size ->
  tx_script w = [] -> rx_faults w = [] -> rxq w = d :: q ->
  rejected d ->
  exists w',
    audit_send fd type data size w = Done (reject_code d) w'
    /\ rxq w' = d :: q /\ rx_faults w' = [] /\ tx_script w' = [].
Proof.
  intros Hfd H0 HB HD Htx F Q Hrej.
  rewrite (audit_send_transmitted fd type data size w 0) by assumption.
  cbv zeta. cbn [tx_interrupts].
  set (w2 := set_tx_script [] _).
  assert (F2 : hd None (rx_faults w2) = None) by (subst w2; cbn; rewrite F; reflexivity).
  assert (Q2 : rxq w2 = d :: q) by exact Q.
  unfold await_ack. unfold bind at 1, get_world. unfold bind at 1.
  unfold get_ack. pose proof Hfd as Hfd'. apply Z.ltb_ge in Hfd'. rewrite Hfd'.
  unfold bind at 1, get_world. unfold bind at 1.
  rewrite (audit_get_reply_delivers fd _ _ _ w2 d q Hfd F2 Q2).
  assert (V : exists rep',
            (if negb (dg_addrlen d =? sizeof_sockaddr_nl)
             then (- EPROTO, store_msg (dg_msg d) (auto_rep w2))
             else if negb (dg_nl_pid d =? 0)
             then (- EINVAL, store_msg (dg_msg d) (auto_rep w2))
             else set_internal_fields (store_msg (dg_msg d) (auto_rep w2)) (recv_len d))
            = (reject_code d, rep') /\ reject_code d < 0).
  { unfold reject_code.
    destruct (Z.eqb_spec (dg_addrlen d) sizeof_sockaddr_nl) as [L | L]; cbn [negb].
    2:{ eexists. split; [reflexivity | unfold EPROTO; lia]. }
    destruct (Z.eqb_spec (dg_nl_pid d) 0) as [P | P]; cbn [negb].
    2:{ eexists. split; [reflexivity | unfold EINVAL; lia]. }
    destruct Hrej as [C | [C | Bad]]; [contradiction | contradiction |].
    unfold set_internal_fields. cbn [decode rep_msg store_msg]. rewrite Bad. cbn [negb].
    eexists. split; [reflexivity |].
    destruct (recv_len d =? sizeof_audit_message); [unfold EFBIG | unfold EBADE]; lia. }
  destruct V as (rep' & -> & Hneg).
  apply Z.ltb_lt in Hneg. rewrite Hneg.
  unfold ret, bind, get_world.
  replace (reject_code d =? 0) with false
    by (symmetry; apply Z.eqb_neq; apply Z.ltb_lt in Hneg; lia).
  rewrite out_spec. eexists. split; [reflexivity |].
  match goal with |- rxq (if ?c then _ else _) = _ /\ _ => destruct c end;
    cbn; rewrite ?F; repeat split; auto; rewrite peek_flag_set; reflexivity.
Qed.

(** X14.  When the peek of the ack wait fails with an errno other than
    [EINTR], after any number of interrupted attempts, the send returns the
    negated errno; the frame has gone out, the sequence number is used up
    and nothing is taken off the queue. *)
Theorem audit_send_ack_wait_fails fd type data size w n e fs :
  0 <= fd -> 0 <= size ->
  4 * ((sizeof_nlmsghdr + size + 3) / 4) <= MAX_AUDIT_MESSAGE_LENGTH ->
  data_covers data size ->
  tx_script w = [] ->
  rx_faults w = repeat (Some EINTR) n ++ Some e :: fs -> e <> EINTR -> 0 < e ->
  exists w',
    audit_send fd type data size w = Done (- e) w'
    /\ rxq w' = rxq w
    /\ sequence w' = rolled (s16 (sequence w + 1)).
Proof.
  intros Hfd H0 HB HD Htx F Hne Hpos.
  rewrite (audit_send_transmitted fd type data size w 0) by assumption.
  cbv zeta. cbn [tx_interrupts].
  set (w2 := set_tx_script [] _).
  unfold await_ack. unfold bind at 1, get_world. unfold bind at 1.
  unfold get_ack. pose proof Hfd as Hfd'. apply Z.ltb_ge in Hfd'. rewrite Hfd'.
  unfold bind at 1, get_world. unfold bind at 1.
  destruct (audit_get_reply_fails_after_interrupts fd (auto_rep w2) GET_REPLY_BLOCKING MSG_PEEK
              w2 n e fs Hfd F Hne) as (w3 & E & Q3 & _ & _); [discriminate |].
  pose proof (keeps_sequence_audit_get_reply fd (auto_rep w2) GET_REPLY_BLOCKING
                MSG_PEEK w2) as K.
  rewrite E in *. cbn [end_world] in K.
  replace (- e <? 0) with true by (symmetry; apply Z.ltb_lt; lia).
  unfold ret, bind, get_world.
  replace (- e =? 0) with false by (symmetry; apply Z.eqb_neq; lia).
  rewrite out_spec. eexists. split; [reflexivity |].
  split.
  - destruct (sequence w3 <? 0); cbn [rxq set_sequence]; exact Q3.
  - rewrite out_sequence, K. reflexivity.
Qed.

End Transmission.

(** ** Payloads and the control operations *)

Section Payloads.
Context `{libaudit_h}.

Lemma skipn_repeat_sub {A} (x : A) (n m : nat) :
  skipn n (repeat x m) = repeat x (m - n).
Proof.
  revert m. induction n as [| n IH]; intros m.
  - now rewrite Nat.sub_0_r.
  - destruct m as [| m]; [reflexivity |]. cbn. apply IH.
Qed.

Lemma Z_of_byte_of_Z (x : Z) : Z_of_byte (byte_of_Z x) = x mod 256.
Proof.
  unfold Z_of_byte, byte_of_Z.
  pose proof (Z.mod_pos_bound x 256 ltac:(lia)) as Hr.
  destruct (Byte.of_N (Z.to_N (x mod 256))) as [b |] eqn:E.
  - apply Byte.to_of_N in E. rewrite E. lia.
  - apply Byte.of_N_None_iff in E. lia.
Qed.

(** Reading back the four bytes [le32] writes gives the value modulo
    2^32, whatever follows them. *)
Lemma read_u32_le32 (x : Z) (rest : list byte) :
  read_u32 (le32 x ++ rest) = u32 x.
Proof.
  unfold read_u32, le32, u32. cbn [app nth].
  rewrite !Z_of_byte_of_Z.
  pose proof (Z.div_mod x 256 ltac:(lia)).
  pose proof (Z.div_mod (x / 256) 256 ltac:(lia)).
  pose proof (Z.div_mod (x / 65536) 256 ltac:(lia)).
  pose proof (Z.div_mod (x / 16777216) 256 ltac:(lia)).
  pose proof (Z.mod_pos_bound x 256 ltac:(lia)).
  pose proof (Z.mod_pos_bound (x / 256) 256 ltac:(lia)).
  pose proof (Z.mod_pos_bound (x / 65536) 256 ltac:(lia)).
  pose proof (Z.mod_pos_bound (x / 16777216) 256 ltac:(lia)).
  assert (x / 65536 = x / 256 / 256) by (rewrite Z.div_div by lia; reflexivity).
  assert (x / 16777216 = x / 65536 / 256) by (rewrite Z.div_div by lia; reflexivity).
  pose proof (Z.div_mod x 4294967296 ltac:(lia)).
  pose proof (Z.mod_pos_bound x 4294967296 ltac:(lia)).
  lia.
Qed.

Lemma wire_payload_request type src size seq :
  0 <= size <= Z.of_nat (length src) ->
  4 * ((sizeof_nlmsghdr + size + 3) / 4) <= MAX_AUDIT_MESSAGE_LENGTH ->
  wire_payload (request type (Some src) size seq) =
    firstn (Z.to_nat size) src
    ++ repeat x00 (Z.to_nat (4 * ((sizeof_nlmsghdr + size + 3) / 4)
                             - sizeof_nlmsghdr - size)).
Proof.
  intros [H0 HL] HB.
  destruct (within_bounds_space size H0 HB) as (HS & _ & HM).
  pose proof MAX_AUDIT_MESSAGE_LENGTH_int as HI.
  assert (HA : size + 16 <= 4 * ((sizeof_nlmsghdr + size + 3) / 4)).
  { unfold sizeof_nlmsghdr.
    pose proof (Z.div_mod (16 + size + 3) 4 ltac:(lia)).
    pose proof (Z.mod_pos_bound (16 + size + 3) 4 ltac:(lia)). lia. }
  unfold wire_payload. cbn [request nlh nlmsg_len data]. rewrite HS.
  set (A := 4 * ((sizeof_nlmsghdr + size + 3) / 4)) in *.
  unfold sizeof_nlmsghdr in *.
  assert (Hlen : length (firstn (Z.to_nat size) src) = Z.to_nat size)
    by (apply firstn_length_le; lia).
  destruct (Z.eqb_spec size 0) as [-> | Hnz].
  - cbn [Z.to_nat firstn app]. unfold zeroed_data.
    rewrite firstn_repeat_le by lia. f_equal; lia.
  - rewrite firstn_app, Hlen.
    rewrite firstn_all2 by lia. f_equal.
    unfold zeroed_data. rewrite skipn_repeat_sub, firstn_repeat_le by lia.
    f_equal; lia.
Qed.

(** X15.  The payload goes out as the caller gave it: the frame handed to
    [sendto] carries the first [size] bytes of the caller's data right
    after the header, followed by fewer than four zero bytes of padding. *)
Theorem audit_send_payload_intact fd type src size w :
  0 <= fd -> 0 <= size <= Z.of_nat (length src) ->
  4 * ((sizeof_nlmsghdr + size + 3) / 4) <= MAX_AUDIT_MESSAGE_LENGTH ->
  exists req rest pad,
    trace_of (audit_send fd type (Some src) size w) =
      trace w ++ Sendto fd req (nlmsg_len (nlh req)) :: rest
    /\ wire_payload req = firstn (Z.to_nat size) src ++ repeat x00 pad
    /\ (pad < 4)%nat.
Proof.
  intros Hfd [H0 HL] HB.
  destruct (audit_send_first_call fd type (Some src) size w Hfd H0 HB HL) as [rest E].
  exists (request type (Some src) size (s16 (sequence w + 1))), rest.
  eexists. split; [exact E |]. split.
  - apply wire_payload_request; [split; assumption | exact HB].
  - unfold sizeof_nlmsghdr.
    pose proof (Z.div_mod (16 + size + 3) 4 ltac:(lia)).
    pose proof (Z.mod_pos_bound (16 + size + 3) 4 ltac:(lia)). lia.
Qed.

Lemma trace_of_bind {A B} (c : M A) (k : A -> M B) w :
  (forall a, appends (k a)) ->
  exists rest, trace_of (bind c k w) = trace_of (c w) ++ rest.
Proof.
  intros Hk. unfold bind.
  destruct (c w) as [a w' | w' | w']; cbn [trace_of].
  - apply Hk.
  - exists []. now rewrite app_nil_r.
  - exists []. now rewrite app_nil_r.
Qed.

Lemma appends_drain fd wmode : appends (drain fd wmode).
Proof.
  unfold drain. destruct (negb (rep_wait_t_eqb wmode WAIT_NO)); [| apply appends_ret].
  apply appends_bind; [apply appends_get_world | intros w].
  apply appends_bind; [apply appends_audit_get_reply | intros r; apply appends_ret].
Qed.

Lemma appends_after_send fd wmode (rc : Z) :
  appends (if rc <? 0 then ret rc else drain fd wmode ;;; ret 0).
Proof.
  destruct (rc <? 0); [apply appends_ret |].
  apply appends_bind; [apply appends_drain | intros; apply appends_ret].
Qed.

(** X16.  [audit_set_pid] sends one [AUDIT_SET] request of 48 bytes with
    the flags [NLM_F_REQUEST | NLM_F_ACK] as its first socket call; the 32
    bytes of payload are a zeroed status structure in which the mask reads
    back as [AUDIT_STATUS_PID] and the pid member as the given pid. *)
Theorem audit_set_pid_request fd pid wmode w :
  0 <= fd -> 0 <= pid < 4294967296 -> 48 <= MAX_AUDIT_MESSAGE_LENGTH ->
  exists req rest,
    trace_of (audit_set_pid fd pid wmode w) = trace w ++ Sendto fd req 48 :: rest
    /\ nlmsg_len (nlh req) = 48
    /\ nlmsg_type (nlh req) = AUDIT_SET
    /\ nlmsg_flags (nlh req) = Z.lor NLM_F_REQUEST NLM_F_ACK
    /\ wire_payload req = audit_status_bytes pid AUDIT_STATUS_PID
    /\ read_u32 (wire_payload req) = AUDIT_STATUS_PID
    /\ read_u32 (skipn 12 (wire_payload req)) = pid
    /\ Forall (fun b => b = x00)
         (firstn 8 (skipn 4 (wire_payload req)) ++ skipn 16 (wire_payload req)).
Proof.
  intros Hfd Hpid HM.
  assert (HB : 4 * ((sizeof_nlmsghdr + sizeof_audit_status + 3) / 4)
               <= MAX_AUDIT_MESSAGE_LENGTH) by exact HM.
  assert (HL : 0 <= sizeof_audit_status
               <= Z.of_nat (length (audit_status_bytes (u32 pid) AUDIT_STATUS_PID))).
  { change (length (audit_status_bytes (u32 pid) AUDIT_STATUS_PID)) with 32%nat.
    unfold sizeof_audit_status. lia. }
  unfold audit_set_pid.
  destruct (audit_send_first_call fd AUDIT_SET
              (Some (audit_status_bytes (u32 pid) AUDIT_STATUS_PID))
              sizeof_audit_status w Hfd (proj1 HL) HB (proj2 HL)) as [rest E].
  destruct (trace_of_bind
              (audit_send fd AUDIT_SET
                 (Some (audit_status_bytes (u32 pid) AUDIT_STATUS_PID))
                 sizeof_audit_status)
              (fun rc => if rc <? 0 then ret rc else drain fd wmode ;;; ret 0) w
              (appends_after_send fd wmode)) as [rest' E'].
  set (req := request AUDIT_SET (Some (audit_status_bytes (u32 pid) AUDIT_STATUS_PID))
                sizeof_audit_status (s16 (sequence w + 1))) in *.
  assert (P : wire_payload req = audit_status_bytes pid AUDIT_STATUS_PID).
  { subst req. rewrite wire_payload_request by assumption.
    rewrite u32_small by exact Hpid.
    change (Z.to_nat (4 * ((sizeof_nlmsghdr + sizeof_audit_status + 3) / 4)
                      - sizeof_nlmsghdr - sizeof_audit_status)) with 0%nat.
    cbn [repeat]. rewrite app_nil_r. reflexivity. }
  exists req, (rest ++ rest').
  split; [rewrite E', E, <- app_assoc; reflexivity |].
  split; [reflexivity |]. split; [reflexivity |]. split; [reflexivity |].
  split; [exact P |]. rewrite P. unfold audit_status_bytes.
  split; [apply read_u32_le32 |].
  split.
  - change (skipn 12 (le32 AUDIT_STATUS_PID ++ le32 0 ++ le32 0 ++ le32 pid ++
                      le32 0 ++ le32 0 ++ le32 0 ++ le32 0))
      with (le32 pid ++ le32 0 ++ le32 0 ++ le32 0 ++ le32 0).
    rewrite read_u32_le32. apply u32_small. exact Hpid.
  - cbn. repeat constructor.
Qed.

(** X17.  The wait mode never changes what the two control operations
    return: with or without the draining receive the result is the same,
    and it is never a positive number (a successful send is reported as 0,
    not as its sequence number). *)
Theorem control_wait_mode fd w :
  (forall pid,
     result (audit_set_pid fd pid WAIT_YES w) = result (audit_set_pid fd pid WAIT_NO w)
     /\ forall rc, result (audit_set_pid fd pid WAIT_NO w) = Some rc -> rc <= 0)
  /\ (forall enabled,
     result (audit_set_logsplit fd enabled WAIT_YES w)
       = result (audit_set_logsplit fd enabled WAIT_NO w)
     /\ forall rc, result (audit_set_logsplit fd enabled WAIT_NO w) = Some rc -> rc <= 0).
Proof.
  assert (D : forall (c : M Z),
            result (bind c (fun rc => if rc <? 0 then ret rc
                                      else drain fd WAIT_YES ;;; ret 0) w)
            = result (bind c (fun rc => if rc <? 0 then ret rc
                                        else drain fd WAIT_NO ;;; ret 0) w)
            /\ forall rc,
                 result (bind c (fun rc => if rc <? 0 then ret rc
                                           else drain fd WAIT_NO ;;; ret 0) w) = Some rc ->
                 rc <= 0).
  { intros c.
    set (kY := fun rc : Z => if rc <? 0 then ret rc else drain fd WAIT_YES ;;; ret 0).
    set (kN := fun rc : Z => if rc <? 0 then ret rc else drain fd WAIT_NO ;;; ret 0).
    unfold bind.
    destruct (c w) as [rc w1 | w1 | w1];
      [| split; [reflexivity | discriminate] | split; [reflexivity | discriminate]].
    subst kY kN. cbv beta.
    destruct (Z.ltb_spec rc 0) as [Hn | Hn].
    - split; [reflexivity |]. unfold ret. cbn. intros ? [= <-]. lia.
    - unfold drain. cbn [rep_wait_t_eqb negb]. split.
      + unfold bind at 1. unfold bind at 1, get_world. unfold bind at 1.
        destruct (audit_get_reply_done fd (auto_rep w1) GET_REPLY_NONBLOCKING 0 w1)
          as (r & w2 & E); [left; reflexivity |].
        rewrite E. reflexivity.
      + unfold bind, ret. cbn. intros ? [= <-]. lia. }
  split.
  - intros pid. apply D.
  - intros enabled. unfold audit_set_logsplit.
    destruct (negb (enabled =? AUDIT_LOGSPLIT_OFF) && negb (enabled =? AUDIT_LOGSPLIT_ON)).
    + split; [reflexivity |]. unfold ret. cbn. intros ? [= <-]. unfold EINVAL. lia.
    + apply D.
Qed.

(** X18.  A registration that the kernel acknowledges with code 0 makes
    [audit_set_pid] return 0 with the ack taken off the queue; in a wait
    mode other than [WAIT_NO] the draining receive takes at most one
    further datagram, and an empty queue is no failure. *)
Theorem audit_set_pid_registers fd pid wmode w d q :
  0 <= fd -> 48 <= MAX_AUDIT_MESSAGE_LENGTH ->
  tx_script w = [] -> rx_faults w = [] -> rxq w = d :: q ->
  dg_addrlen d = sizeof_sockaddr_nl -> dg_nl_pid d = 0 ->
  NLMSG_OK (nlh (dg_msg d)) (recv_len d) = true ->
  nlmsg_type (nlh (dg_msg d)) = NLMSG_ERROR ->
  nlmsgerr_error (dg_msg d) = 0 ->
  0 <= s16 (sequence w + 1) ->
  exists w',
    audit_set_pid fd pid wmode w = Done 0 w'
    /\ rxq w' = match wmode with WAIT_NO => q | WAIT_YES => tl q end
    /\ sequence w' = s16 (sequence w + 1).
Proof.
  intros Hfd HM Htx F Q L P Hok T E Hseq.
  assert (HB : 4 * ((sizeof_nlmsghdr + sizeof_audit_status + 3) / 4)
               <= MAX_AUDIT_MESSAGE_LENGTH) by exact HM.
  assert (HL : data_covers (Some (audit_status_bytes (u32 pid) AUDIT_STATUS_PID))
                 sizeof_audit_status).
  { cbn [data_covers].
    change (length (audit_status_bytes (u32 pid) AUDIT_STATUS_PID)) with 32%nat.
    unfold sizeof_audit_status. lia. }
  unfold audit_set_pid. unfold bind at 1.
  rewrite (audit_send_exchange fd AUDIT_SET _ sizeof_audit_status w d q)
    by (assumption || (unfold sizeof_audit_status; lia)).
  cbv zeta. rewrite out_spec.
  set (seq := s16 (sequence w + 1)) in *.
  set (w2 := set_tx_script [] _).
  assert (A : ack_code d = 0) by (unfold ack_code; rewrite T, E; reflexivity).
  rewrite A. cbn [Z.eqb].
  assert (S4 : sequence (acked fd d q w2) = seq)
    by (unfold acked; cbv zeta; rewrite T; reflexivity).
  rewrite S4. apply Z.ltb_ge in Hseq. rewrite Hseq.
  set (w4 := acked fd d q w2).
  assert (Q4 : rxq w4 = q).
  { subst w4. unfold acked. cbv zeta. rewrite T. cbn [Z.eqb Pos.eqb NLMSG_ERROR].
    unfold delivered. cbn [rxq set_rxq]. rewrite peek_flag_clear. reflexivity. }
  assert (F4 : rx_faults w4 = []).
  { subst w4. unfold acked. cbv zeta. rewrite T. cbn. rewrite F. reflexivity. }
  destruct wmode; unfold drain; cbn [rep_wait_t_eqb negb].
  - unfold bind, ret. eexists. repeat split; auto.
  - unfold bind, get_world.
    destruct q as [| d2 q2].
    + rewrite (audit_get_reply_would_block fd _ 0 w4 Hfd)
        by (rewrite ?F4; auto).
      unfold ret. eexists. repeat split; auto.
    + rewrite (audit_get_reply_delivers fd _ GET_REPLY_NONBLOCKING 0 w4 d2 q2 Hfd)
        by (rewrite ?F4; auto).
      unfold ret. eexists. split; [reflexivity |]. split; [reflexivity | exact S4].
Qed.

(** X19.  With one of the two defined flag values, [audit_set_logsplit]
    is not turned away: its first socket call is the [sendto] of a request
    of type [AUDIT_LOGSPLIT_SET] whose payload is the status structure
    holding the flag, followed by fewer than four zero bytes of padding. *)
Theorem audit_set_logsplit_request fd enabled wmode w :
  0 <= fd ->
  enabled = AUDIT_LOGSPLIT_OFF \/ enabled = AUDIT_LOGSPLIT_ON ->
  4 * ((sizeof_nlmsghdr
        + Z.of_nat (length (audit_logsplit_status_bytes enabled)) + 3) / 4)
    <= MAX_AUDIT_MESSAGE_LENGTH ->
  exists req rest pad,
    trace_of (audit_set_logsplit fd enabled wmode w)
      = trace w ++ Sendto fd req (nlmsg_len (nlh req)) :: rest
    /\ nlmsg_type (nlh req) = u16 AUDIT_LOGSPLIT_SET
    /\ nlmsg_flags (nlh req) = Z.lor NLM_F_REQUEST NLM_F_ACK
    /\ wire_payload req = audit_logsplit_status_bytes enabled ++ repeat x00 pad
    /\ (pad < 4)%nat.
Proof.
  intros Hfd Hen HB.
  set (st := audit_logsplit_status_bytes enabled) in *.
  assert (G : (negb (enabled =? AUDIT_LOGSPLIT_OFF)
               && negb (enabled =? AUDIT_LOGSPLIT_ON)) = false).
  { destruct Hen as [-> | ->]; rewrite Z.eqb_refl; cbn [negb andb];
      [reflexivity | apply andb_false_r]. }
  unfold audit_set_logsplit. rewrite G. fold st. cbv zeta.
  assert (H0 : 0 <= Z.of_nat (length st)) by lia.
  destruct (audit_send_first_call fd AUDIT_LOGSPLIT_SET (Some st)
              (Z.of_nat (length st)) w Hfd H0 HB (Z.le_refl _)) as [rest E].
  destruct (trace_of_bind
              (audit_send fd AUDIT_LOGSPLIT_SET (Some st) (Z.of_nat (length st)))
              (fun rc => if rc <? 0 then ret rc else drain fd wmode ;;; ret 0) w
              (appends_after_send fd wmode)) as [rest' E'].
  exists (request AUDIT_LOGSPLIT_SET (Some st) (Z.of_nat (length st))
            (s16 (sequence w + 1))), (rest ++ rest').
  eexists.
  split; [rewrite E', E, <- app_assoc; reflexivity |].
  split; [reflexivity |]. split; [reflexivity |]. split.
  - rewrite wire_payload_request by (try split; try assumption; lia).
    rewrite Nat2Z.id, firstn_all. reflexivity.
  - unfold sizeof_nlmsghdr.
    pose proof (Z.div_mod (16 + Z.of_nat (length st) + 3) 4 ltac:(lia)).
    pose proof (Z.mod_pos_bound (16 + Z.of_nat (length st) + 3) 4 ltac:(lia)). lia.
Qed.

End Payloads.

(** ** Two more edges *)

Section Edges.
Context `{libaudit_h}.

(** X20.  Below the wrap-around of the 32-bit arithmetic, the frame
    length [NLMSG_SPACE(size)] is a multiple of four that covers the
    header and the payload with fewer than four bytes to spare, and it
    grows with the payload size. *)
Theorem NLMSG_SPACE_bounds (size size' : Z) :
  0 <= size <= size' -> size' + 19 < 4294967296 ->
  NLMSG_SPACE size mod 4 = 0
  /\ sizeof_nlmsghdr + size <= NLMSG_SPACE size < sizeof_nlmsghdr + size + 4
  /\ NLMSG_SPACE size <= NLMSG_SPACE size'.
Proof.
  intros Hs Hw. rewrite !NLMSG_SPACE_spec by lia. unfold sizeof_nlmsghdr.
  pose proof (Z.div_mod (16 + size + 3) 4 ltac:(lia)).
  pose proof (Z.mod_pos_bound (16 + size + 3) 4 ltac:(lia)).
  pose proof (Z.div_le_mono (16 + size + 3) (16 + size' + 3) 4 ltac:(lia) ltac:(lia)).
  repeat split; try lia.
  rewrite Z.mul_comm. apply Z.mod_mul. lia.
Qed.

(** X21.  The result of the consuming receive in the ack wait is not
    looked at: when that receive fails, the send still decides from the
    reply it peeked at, and the ack stays at the head of the queue, where
    the next ack wait will find it again. *)
Theorem audit_send_ack_not_consumed fd type data size w d q e fs :
  0 <= fd -> 0 <= size ->
  4 * ((sizeof_nlmsghdr + size + 3) / 4) <= MAX_AUDIT_MESSAGE_LENGTH ->
  data_covers data size ->
  tx_script w = [] ->
  rx_faults w = None :: Some e :: fs -> e <> EINTR ->
  rxq w = d :: q ->
  dg_addrlen d = sizeof_sockaddr_nl -> dg_nl_pid d = 0 ->
  NLMSG_OK (nlh (dg_msg d)) (recv_len d) = true ->
  nlmsg_type (nlh (dg_msg d)) = NLMSG_ERROR ->
  exists w',
    audit_send fd type data size w
      = Done (if ack_code d =? 0 then s16 (sequence w + 1) else ack_code d) w'
    /\ rxq w' = d :: q.
Proof.
  intros Hfd H0 HB HD Htx F Hne Q L P Hok T.
  rewrite (audit_send_transmitted fd type data size w 0) by assumption.
  cbv zeta. cbn [tx_interrupts].
  set (seq := s16 (sequence w + 1)).
  set (w2 := set_tx_script [] _).
  assert (F2 : hd None (rx_faults w2) = None) by (subst w2; cbn; rewrite F; reflexivity).
  assert (Q2 : rxq w2 = d :: q) by exact Q.
  unfold await_ack. unfold bind at 1, get_world. unfold bind at 1.
  unfold get_ack. pose proof Hfd as Hfd'. apply Z.ltb_ge in Hfd'. rewrite Hfd'.
  unfold bind at 1, get_world. unfold bind at 1.
  rewrite (audit_get_reply_delivers fd _ _ _ w2 d q Hfd F2 Q2).
  pose proof L as L'. pose proof P as P'.
  apply Z.eqb_eq in L', P'. rewrite L', P'. cbn [negb].
  rewrite set_internal_fields_ok by exact Hok.
  cbn [Z.ltb Z.compare decode rep_type store_msg rep_msg].
  rewrite T. cbn [Z.eqb Pos.eqb NLMSG_ERROR].
  set (w3 := delivered fd (recv_flags GET_REPLY_BLOCKING MSG_PEEK) d q w2).
  assert (F3 : hd None (rx_faults w3) = Some e)
    by (subst w3 w2; unfold delivered; cbn; rewrite F; reflexivity).
  unfold bind at 1.
  rewrite (audit_get_reply_fails fd _ GET_REPLY_BLOCKING 0 w3 e Hfd F3 Hne)
    by discriminate.
  unfold read_error, view_of_type, ack_code.
  cbn [rep_view rep_msg decode store_msg snd]. rewrite ?T.
  cbn [Z.eqb Pos.eqb NLMSG_ERROR].
  unfold bind, get_world, ret.
  destruct (nlmsgerr_error (dg_msg d) =? 0); cbn [negb];
    rewrite out_spec; (eexists; split; [reflexivity |]);
    match goal with |- rxq (if ?c then _ else _) = _ => destruct c end;
    cbn; rewrite peek_flag_set; reflexivity.
Qed.

End Edges.

Lemma NLMSG_SPACE_bounds_witness :
  NLMSG_SPACE 5 mod 4 = 0
  /\ sizeof_nlmsghdr + 5 <= NLMSG_SPACE 5 < sizeof_nlmsghdr + 5 + 4
  /\ NLMSG_SPACE 5 <= NLMSG_SPACE 32.
Proof. apply (NLMSG_SPACE_bounds 5 32); concrete. Defined.

Lemma audit_send_ack_not_consumed_witness :
  exists w',
    audit_send (H := sample_libaudit_h) 3 AUDIT_SET None 0
      {| sequence := 0; errno := 0; rxq := [ack_datagram 0 1];
         rx_faults := [None; Some EACCES];
         tx_script := []; trace := []; auto_rep := zero_reply |}
      = Done 1 w'
    /\ rxq w' = [ack_datagram 0 1].
Proof.
  apply (audit_send_ack_not_consumed (H := sample_libaudit_h) 3 AUDIT_SET None 0
           {| sequence := 0; errno := 0; rxq := [ack_datagram 0 1];
              rx_faults := [None; Some EACCES];
              tx_script := []; trace := []; auto_rep := zero_reply |}
           (ack_datagram 0 1) [] EACCES []);
    concrete.
Defined.

(** ** The further properties at concrete inputs *)

Lemma audit_get_reply_recv_error_witness :
  exists w',
    audit_get_reply (H := sample_libaudit_h) 3 stale_reply GET_REPLY_BLOCKING 0
      (failing_recv_world EAGAIN [ack_datagram 0 1]) = Done (- EAGAIN, stale_reply) w'
    /\ rxq w' = [ack_datagram 0 1] /\ rx_faults w' = [] /\ errno w' = EAGAIN.
Proof.
  apply (audit_get_reply_recv_error (H := sample_libaudit_h) 3 stale_reply
           GET_REPLY_BLOCKING 0 (failing_recv_world EAGAIN [ack_datagram 0 1])
           1 EAGAIN []);
    concrete.
Defined.

Lemma audit_get_reply_peek_then_read_witness :
  exists r w1 w2,
    audit_get_reply (H := sample_libaudit_h) 3 zero_reply GET_REPLY_BLOCKING MSG_PEEK
      (quiet_world 0 [spoofed_datagram]) = Done r w1
    /\ rxq w1 = [spoofed_datagram]
    /\ audit_get_reply (H := sample_libaudit_h) 3 (snd r) GET_REPLY_BLOCKING 0 w1
       = Done r w2
    /\ rxq w2 = [].
Proof.
  apply (audit_get_reply_peek_then_read (H := sample_libaudit_h) 3 zero_reply
           GET_REPLY_BLOCKING (quiet_world 0 [spoofed_datagram]) spoofed_datagram []);
    concrete.
Defined.

Lemma audit_get_reply_returns_witness :
  exists r w',
    audit_get_reply (H := sample_libaudit_h) 3 zero_reply GET_REPLY_NONBLOCKING 0
      interrupted_world = Done r w'.
Proof.
  apply (audit_get_reply_returns (H := sample_libaudit_h) 3 zero_reply
           GET_REPLY_NONBLOCKING 0 interrupted_world).
  left. reflexivity.
Defined.

Lemma audit_get_reply_blocks_witness :
  exists w',
    audit_get_reply (H := sample_libaudit_h) 3 zero_reply GET_REPLY_BLOCKING 0
      interrupted_world = Blocked w'
    /\ rxq w' = [].
Proof.
  apply (audit_get_reply_blocks (H := sample_libaudit_h) 3 zero_reply 0
           interrupted_world 2 []);
    concrete.
Defined.

Lemma audit_get_reply_sign_witness : - EINVAL <= 0.
Proof.
  apply (audit_get_reply_sign (H := sample_libaudit_h) 3 zero_reply
           GET_REPLY_BLOCKING 0 (quiet_world 0 [spoofed_datagram])
           (- EINVAL) (store_msg (dg_msg spoofed_datagram) zero_reply)
           (delivered 3 (recv_flags GET_REPLY_BLOCKING 0) spoofed_datagram []
              (quiet_world 0 [spoofed_datagram]))).
  - constructor.
  - reflexivity.
Defined.

Lemma audit_send_consumes_sequence_witness :
  option_map sequence
    (final (audit_send (H := sample_libaudit_h) 3 AUDIT_SET None 0 refusing_world))
  = Some 1.
Proof.
  assert (T := audit_send_consumes_sequence (H := sample_libaudit_h)
                 3 AUDIT_SET None 0 refusing_world
                 ltac:(concrete) ltac:(concrete)).
  destruct (audit_send (H := sample_libaudit_h) 3 AUDIT_SET None 0 refusing_world)
    as [rc w' | w' | w'] eqn:E; [| discriminate E | discriminate E].
  cbn [final option_map]. rewrite T. reflexivity.
Defined.

Lemma audit_send_counter_range_witness :
  exists rc w',
    audit_send (H := sample_libaudit_h) 3 AUDIT_SET None 0
      (quiet_world 32767 [ack_datagram 0 1]) = Done rc w'
    /\ 0 <= sequence w' <= 32767.
Proof.
  destruct (audit_send (H := sample_libaudit_h) 3 AUDIT_SET None 0
              (quiet_world 32767 [ack_datagram 0 1])) as [rc w' | w' | w'] eqn:E;
    [| discriminate E | discriminate E].
  exists rc, w'. split; [reflexivity |].
  apply (audit_send_counter_range (H := sample_libaudit_h) 3 AUDIT_SET None 0
           (quiet_world 32767 [ack_datagram 0 1]) rc w'); [concrete | exact E].
Defined.

Lemma audit_send_interrupted_sendto_witness :
  result (audit_send (H := sample_libaudit_h) 3 AUDIT_SET None 0
            (interrupted_send_world [ack_datagram 0 1])) = Some 1
  /\ trace_of (audit_send (H := sample_libaudit_h) 3 AUDIT_SET None 0
                 (interrupted_send_world [ack_datagram 0 1]))
     = trace (interrupted_send_world [ack_datagram 0 1])
       ++ repeat (Sendto 3 (request (H := sample_libaudit_h) AUDIT_SET None 0 1) 16) 3
       ++ [Recvfrom 3 MSG_PEEK; Recvfrom 3 0].
Proof.
  apply (audit_send_interrupted_sendto (H := sample_libaudit_h) 3 AUDIT_SET None 0
           (interrupted_send_world [ack_datagram 0 1]) 2 (ack_datagram 0 1) []);
    concrete.
Defined.

Lemma audit_send_waits_for_ack_witness :
  exists w',
    audit_send (H := sample_libaudit_h) 3 AUDIT_SET None 0 (quiet_world 0 [])
      = Blocked w'
    /\ sequence w' = 1
    /\ trace w' = [Sendto 3 (request (H := sample_libaudit_h) AUDIT_SET None 0 1) 16;
                   Recvfrom 3 MSG_PEEK].
Proof.
  apply (audit_send_waits_for_ack (H := sample_libaudit_h) 3 AUDIT_SET None 0
           (quiet_world 0 []));
    concrete.
Defined.

Lemma audit_send_rejected_reply_stays_witness :
  exists w',
    audit_send (H := sample_libaudit_h) 3 AUDIT_SET None 0
      (quiet_world 0 [spoofed_datagram]) = Done (- EINVAL) w'
    /\ rxq w' = [spoofed_datagram] /\ rx_faults w' = [] /\ tx_script w' = [].
Proof.
  apply (audit_send_rejected_reply_stays (H := sample_libaudit_h) 3 AUDIT_SET None 0
           (quiet_world 0 [spoofed_datagram]) spoofed_datagram []);
    try concrete.
  right. left. discriminate.
Defined.

Lemma audit_send_ack_wait_fails_witness :
  exists w',
    audit_send (H := sample_libaudit_h) 3 AUDIT_SET None 0
      (failing_recv_world EACCES [ack_datagram 0 1]) = Done (- EACCES) w'
    /\ rxq w' = [ack_datagram 0 1]
    /\ sequence w' = 1.
Proof.
  apply (audit_send_ack_wait_fails (H := sample_libaudit_h) 3 AUDIT_SET None 0
           (failing_recv_world EACCES [ack_datagram 0 1]) 1 EACCES []);
    concrete.
Defined.

Lemma audit_send_payload_intact_witness :
  exists req rest pad,
    trace_of (audit_send (H := sample_libaudit_h) 3 AUDIT_SET
                (Some [x01; x02; x03; x04; x05]) 5 (quiet_world 0 []))
      = trace (quiet_world 0 []) ++ Sendto 3 req (nlmsg_len (nlh req)) :: rest
    /\ wire_payload req = firstn (Z.to_nat 5) [x01; x02; x03; x04; x05] ++ repeat x00 pad
    /\ (pad < 4)%nat.
Proof.
  apply (audit_send_payload_intact (H := sample_libaudit_h) 3 AUDIT_SET
           [x01; x02; x03; x04; x05] 5 (quiet_world 0 []));
    concrete.
Defined.

Lemma audit_set_pid_request_witness :
  exists req rest,
    trace_of (audit_set_pid (H := sample_libaudit_h) 3 1234 WAIT_YES
                (quiet_world 0 [ack_datagram 0 1]))
      = trace (quiet_world 0 [ack_datagram 0 1]) ++ Sendto 3 req 48 :: rest
    /\ nlmsg_len (nlh req) = 48
    /\ nlmsg_type (nlh req) = AUDIT_SET
    /\ nlmsg_flags (nlh req) = Z.lor NLM_F_REQUEST NLM_F_ACK
    /\ wire_payload req = audit_status_bytes 1234 AUDIT_STATUS_PID
    /\ read_u32 (wire_payload req) = AUDIT_STATUS_PID
    /\ read_u32 (skipn 12 (wire_payload req)) = 1234
    /\ Forall (fun b => b = x00)
         (firstn 8 (skipn 4 (wire_payload req)) ++ skipn 16 (wire_payload req)).
Proof.
  apply (audit_set_pid_request (H := sample_libaudit_h) 3 1234 WAIT_YES
           (quiet_world 0 [ack_datagram 0 1]));
    concrete.
Defined.

Lemma audit_set_pid_registers_witness :
  exists w',
    audit_set_pid (H := sample_libaudit_h) 3 1234 WAIT_YES
      (quiet_world 0 [ack_datagram 0 1; status_datagram 2; status_datagram 3])
      = Done 0 w'
    /\ rxq w' = [status_datagram 3]
    /\ sequence w' = 1.
Proof.
  apply (audit_set_pid_registers (H := sample_libaudit_h) 3 1234 WAIT_YES
           (quiet_world 0 [ack_datagram 0 1; status_datagram 2; status_datagram 3])
           (ack_datagram 0 1) [status_datagram 2; status_datagram 3]);
    concrete.
Defined.

Lemma audit_set_logsplit_request_witness :
  exists req rest pad,
    trace_of (audit_set_logsplit (H := sample_libaudit_h) 3 1 WAIT_NO
                (quiet_world 0 [ack_datagram 0 1]))
      = trace (quiet_world 0 [ack_datagram 0 1])
        ++ Sendto 3 req (nlmsg_len (nlh req)) :: rest
    /\ nlmsg_type (nlh req) = u16 (AUDIT_LOGSPLIT_SET (libaudit_h := sample_libaudit_h))
    /\ nlmsg_flags (nlh req) = Z.lor NLM_F_REQUEST NLM_F_ACK
    /\ wire_payload req
       = audit_logsplit_status_bytes (libaudit_h := sample_libaudit_h) 1 ++ repeat x00 pad
    /\ (pad < 4)%nat.
Proof.
  apply (audit_set_logsplit_request (H := sample_libaudit_h) 3 1 WAIT_NO
           (quiet_world 0 [ack_datagram 0 1]));
    try concrete.
  right. reflexivity.
Defined.
